(** * UnitConverter: the conversion registry and [convert]

    A shallow embedding of [unit_converter.h] / [unit_converter.cpp].

    - [double] is IEEE 754 binary64, modelled by Rocq's primitive floats:
      the arithmetic and the comparisons below are the ones the C++ code
      performs, NaN and infinities included (each operation rounded to
      nearest-even in binary64, no excess precision, no fused operations).
    - [std::map<std::string, std::function<double(double)>>] is a
      [gmap string (double -> double)]; [operator[]] followed by an
      assignment is an insert-or-overwrite, [find] is a lookup.
    - member functions run in a small state-and-exception monad over the
      object: a [throw] leaves the object as it was at that point. *)

From Stdlib Require Import Reals Lra String Ascii ZArith Floats List Lia.
From stdpp Require Import base option strings gmap.

Set Warnings "-inexact-float".

(** ** Doubles *)

Abbreviation double := float.

(** ** Exceptions and the method monad *)

(** [std::invalid_argument(what)] is the only exception the class throws. *)
Inductive exception : Type :=
| invalid_argument (what : string).

Definition what (e : exception) : string :=
  match e with invalid_argument w => w end.

(** How a call ends: a returned value or a thrown exception. *)
Inductive outcome (A : Type) : Type :=
| Return (a : A)
| Throw (e : exception).
Arguments Return {A} a.
Arguments Throw {A} e.

(** The object: its single data member. *)
Record UnitConverter : Type := MkUnitConverter {
  conversionFunctions : gmap string (double -> double)
}.

(** A member function: from the object before the call to the outcome
    and the object after it. *)
Definition method (A : Type) : Type :=
  UnitConverter -> outcome A * UnitConverter.

#[global] Instance method_ret : MRet method :=
  fun A (a : A) (self : UnitConverter) => (Return a, self).

#[global] Instance method_bind : MBind method :=
  fun A B (k : A -> method B) (m : method A) (self : UnitConverter) =>
    match m self with
    | (Return a, self') => k a self'
    | (Throw e, self') => (Throw e, self')
    end.

Definition throw {A : Type} (e : exception) : method A :=
  fun self => (Throw e, self).

(** [conversionFunctions[name] = f;] *)
Definition assign (name : string) (f : double -> double) : method unit :=
  fun self =>
    (Return tt, MkUnitConverter (<[name := f]> (conversionFunctions self))).

(** [conversionFunctions.find(name)]: [None] stands for [end()]. *)
Definition find_function (name : string) : method (option (double -> double)) :=
  fun self => (Return (conversionFunctions self !! name), self).

(** [if (c) body] with no [else]. *)
Definition when (c : bool) (body : method unit) : method unit :=
  if c then body else mret tt.

Definition result {A : Type} (r : outcome A * UnitConverter) : outcome A := fst r.
Definition after {A : Type} (r : outcome A * UnitConverter) : UnitConverter := snd r.

(** ** Strings *)

(** [s.find(pat)] from position 0; [None] stands for [std::string::npos]. *)
Definition find (s pat : string) : option nat := String.index 0 pat s.

(** [s.find(pat) != std::string::npos] *)
Definition found (s pat : string) : bool :=
  match find s pat with Some _ => true | None => false end.

(** ** Registration *)

Definition registerTemperatureConversions : method unit :=
  assign "CelsiusToFahrenheit" (fun c => (c * 9 / 5) + 32)%float;;
  assign "FahrenheitToCelsius" (fun f => (f - 32) * 5 / 9)%float;;
  assign "CelsiusToKelvin" (fun c => c + 273.15)%float;;
  assign "KelvinToCelsius" (fun k => k - 273.15)%float.

Definition registerDistanceConversions : method unit :=
  assign "KilometersToMiles" (fun km => km * 0.621371)%float;;
  assign "MilesToKilometers" (fun miles => miles / 0.621371)%float;;
  assign "MetersToFeet" (fun m => m * 3.28084)%float;;
  assign "FeetToMeters" (fun ft => ft / 3.28084)%float.

Definition registerWeightConversions : method unit :=
  assign "KilogramsToPounds" (fun kg => kg * 2.20462)%float;;
  assign "PoundsToKilograms" (fun lb => lb / 2.20462)%float;;
  assign "GramsToOunces" (fun g => g * 0.035274)%float;;
  assign "OuncesToGrams" (fun oz => oz / 0.035274)%float.

Definition registerVolumeConversions : method unit :=
  assign "LitersToGallons" (fun l => l * 0.264172)%float;;
  assign "GallonsToLiters" (fun gal => gal / 0.264172)%float;;
  assign "MillilitersToFluidOunces" (fun ml => ml * 0.033814)%float;;
  assign "FluidOuncesToMilliliters" (fun fl_oz => fl_oz / 0.033814)%float.

Definition registerConversionFunctions : method unit :=
  registerTemperatureConversions;;
  registerDistanceConversions;;
  registerWeightConversions;;
  registerVolumeConversions.

(** [UnitConverter::UnitConverter()]: the map starts empty and the
    constructor body fills it. *)
Definition UnitConverter_new : UnitConverter :=
  after (registerConversionFunctions (MkUnitConverter ∅)).

(** ** [convert] *)

Definition convert (conversionType : string) (value : double) : method double :=
  (* Validate input ranges for certain categories *)
  when (found conversionType "Celsius" || found conversionType "Fahrenheit"
        || found conversionType "Kelvin")
    (let cVal := (if found conversionType "Fahrenheit"
                  then (value - 32) * 5 / 9
                  else if found conversionType "Kelvin"
                       then value - 273.15
                       else value)%float in
     when (cVal <? -273.15)%float
       (throw (invalid_argument
                 "Temperature value below absolute zero is not valid.")));;
  (* Distance should not be negative *)
  when (found conversionType "Kilometers" || found conversionType "Miles"
        || found conversionType "Meters" || found conversionType "Feet")
    (when (value <? 0)%float
       (throw (invalid_argument "Negative distance values are not valid.")));;
  (* Weight should not be negative *)
  when (found conversionType "Kilograms" || found conversionType "Pounds"
        || found conversionType "Grams" || found conversionType "Ounces")
    (when (value <? 0)%float
       (throw (invalid_argument "Negative weight values are not valid.")));;
  (* Volume should not be negative *)
  when (found conversionType "Liters" || found conversionType "Gallons"
        || found conversionType "Milliliters" || found conversionType "FluidOunces")
    (when (value <? 0)%float
       (throw (invalid_argument "Negative volume values are not valid.")));;
  (* Clamp excessively large values *)
  let value := (if (1e6 <? value)%float then 1e6
                else if (value <? -1e6)%float then -1e6
                     else value)%float in
  it ← find_function conversionType;
  match it with
  | Some f => mret (f value)
  | None => throw (invalid_argument ("Invalid conversion type: " +:+ conversionType))
  end.


(** ** The vocabulary of the specification *)

(** The specification names five kinds of failure; in the code each is
    [std::invalid_argument] with its own message. *)
Definition BelowAbsoluteZero : exception :=
  invalid_argument "Temperature value below absolute zero is not valid.".
Definition NegativeDistance : exception :=
  invalid_argument "Negative distance values are not valid.".
Definition NegativeWeight : exception :=
  invalid_argument "Negative weight values are not valid.".
Definition NegativeVolume : exception :=
  invalid_argument "Negative volume values are not valid.".
Definition UnknownConversion (name : string) : exception :=
  invalid_argument ("Invalid conversion type: " +:+ name).

(** Categories are inferred from substrings of the name. *)
Definition is_temperature (name : string) : bool :=
  found name "Celsius" || found name "Fahrenheit" || found name "Kelvin".
Definition is_distance (name : string) : bool :=
  found name "Kilometers" || found name "Miles" || found name "Meters"
  || found name "Feet".
Definition is_weight (name : string) : bool :=
  found name "Kilograms" || found name "Pounds" || found name "Grams"
  || found name "Ounces".
Definition is_volume (name : string) : bool :=
  found name "Liters" || found name "Gallons" || found name "Milliliters"
  || found name "FluidOunces".

(** The normalized Celsius value of the temperature check, in the words
    of the specification. *)
Definition normalized (name : string) (value : double) : double :=
  if found name "Fahrenheit" then ((value - 32) * 5 / 9)%float
  else if found name "Kelvin" then (value - 273.15)%float
  else value.

(** The four range checks in their precedence order, in the words of the
    specification: the first one that fails, if any. *)
Definition validation (name : string) (value : double) : option exception :=
  if is_temperature name && (normalized name value <? -273.15)%float
  then Some BelowAbsoluteZero
  else if is_distance name && (value <? 0)%float then Some NegativeDistance
  else if is_weight name && (value <? 0)%float then Some NegativeWeight
  else if is_volume name && (value <? 0)%float then Some NegativeVolume
  else None.

(** Clamping to +-1,000,000. *)
Definition clamp (value : double) : double :=
  if (1e6 <? value)%float then 1e6%float
  else if (value <? -1e6)%float then (-1e6)%float
  else value.

(** Exact-match lookup and invocation. *)
Definition dispatch (self : UnitConverter) (name : string) (value : double)
  : outcome double :=
  match conversionFunctions self !! name with
  | Some f => Return (f value)
  | None => Throw (UnknownConversion name)
  end.

(** The table of section 4.1 of the specification. *)
Definition spec_table : list (string * (double -> double)) :=
  [ ("CelsiusToFahrenheit", fun c => c * 9 / 5 + 32);
    ("FahrenheitToCelsius", fun f => (f - 32) * 5 / 9);
    ("CelsiusToKelvin", fun c => c + 273.15);
    ("KelvinToCelsius", fun k => k - 273.15);
    ("KilometersToMiles", fun km => km * 0.621371);
    ("MilesToKilometers", fun mi => mi / 0.621371);
    ("MetersToFeet", fun m => m * 3.28084);
    ("FeetToMeters", fun ft => ft / 3.28084);
    ("KilogramsToPounds", fun kg => kg * 2.20462);
    ("PoundsToKilograms", fun lb => lb / 2.20462);
    ("GramsToOunces", fun g => g * 0.035274);
    ("OuncesToGrams", fun oz => oz / 0.035274);
    ("LitersToGallons", fun l => l * 0.264172);
    ("GallonsToLiters", fun gal => gal / 0.264172);
    ("MillilitersToFluidOunces", fun ml => ml * 0.033814);
    ("FluidOuncesToMilliliters", fun floz => floz / 0.033814) ]%float.

Definition registered_names : list string := map fst spec_table.

(** [ASSERT_EQ(call, expected)] of the test suite: the call returns and
    the returned double compares equal ([==]) to the expected one. *)
Definition returns_equal (r : outcome double) (expected : double) : bool :=
  match r with
  | Return v => (v =? expected)%float
  | Throw _ => false
  end.

(** [std::isnan]. *)
Definition isnan (x : double) : bool := is_nan x.




(** A session: the calls made on one converter, in order. *)
Fixpoint run (calls : list (string * double)) (self : UnitConverter)
  : list (outcome double) * UnitConverter :=
  match calls with
  | [] => ([], self)
  | (name, value) :: rest =>
      let (r, self') := convert name value self in
      let (rs, self'') := run rest self' in
      (r :: rs, self'')
  end.

(** ** The console

    The interactive part of the program reads [std::cin] and writes
    [std::cout] and [std::cerr]. What is written is recorded call by
    call. What is read comes from the standard library, which is not part
    of the program: [std::cin] is an abstract stream whose operations are
    the fields of [Runtime], together with the values the program's
    uninitialised locals hold before an extraction writes them. Every
    property below holds for every such runtime. *)

(** One call of [operator<<]. *)
Inductive output : Type :=
| cout_text (s : string)         (* std::cout << "..." *)
| cout_fixed                     (* std::cout << std::fixed *)
| cout_setprecision (n : Z)      (* std::cout << std::setprecision(n) *)
| cout_double (d : double)       (* std::cout << d *)
| cerr_text (s : string).        (* std::cerr << "..." *)

Class Runtime (istream : Type) : Type := {
  (* std::cin >> val, from the value val holds: the value it holds
     afterwards and the stream afterwards *)
  extract_double : istream -> double -> double * istream;
  (* std::cin >> choice *)
  extract_int : istream -> Z -> Z * istream;
  (* std::cin.fail() *)
  fail : istream -> bool;
  (* std::cin.clear() *)
  clear : istream -> istream;
  (* std::cin.ignore(std::numeric_limits<std::streamsize>::max(), '\n') *)
  ignore_line : istream -> istream;
  (* what [double value;] and [int choice;] hold before they are written *)
  indeterminate_double : double;
  indeterminate_int : Z
}.

(** ["\n"] *)
Definition nl : string := String (ascii_of_nat 10) EmptyString.

Section Console.
Context {istream : Type} {runtime : Runtime istream}.

(** [std::cin] and everything written so far. *)
Record console : Type := MkConsole {
  cin : istream;
  written : list output
}.

Definition put (os : list output) (io : console) : console :=
  MkConsole (cin io) (written io ++ os).

Definition with_cin (s : istream) (io : console) : console :=
  MkConsole s (written io).

(** [bool safeReadDouble(double &val)]: the result, [val] afterwards. *)
Definition safeReadDouble (val : double) (io : console)
  : bool * double * console :=
  let (val, s) := extract_double (cin io) val in
  if fail s
  then (false, val, with_cin (ignore_line (clear s)) io)
  else (true, val, with_cin s io).

Definition convertTemperature (converter : UnitConverter) (io : console)
  : console :=
  let value := indeterminate_double in
  let io := put [cout_text "Enter temperature value: "] io in
  let '(ok, value, io) := safeReadDouble value io in
  if negb ok
  then put [cerr_text ("Invalid input. Please enter a numeric value." +:+ nl)] io
  else
    let io := put [cout_text ("Choose conversion type:" +:+ nl);
                   cout_text ("1. CelsiusToFahrenheit" +:+ nl);
                   cout_text ("2. FahrenheitToCelsius" +:+ nl);
                   cout_text ("3. CelsiusToKelvin" +:+ nl);
                   cout_text ("4. KelvinToCelsius" +:+ nl);
                   cout_text "Enter choice: "] io in
    let (choice, s) := extract_int (cin io) indeterminate_int in
    let io := with_cin s io in
    match match choice with
          | 1 => Some "CelsiusToFahrenheit"
          | 2 => Some "FahrenheitToCelsius"
          | 3 => Some "CelsiusToKelvin"
          | 4 => Some "KelvinToCelsius"
          | _ => None
          end%Z
    with
    | None => put [cerr_text ("Invalid conversion selection." +:+ nl)] io
    | Some type =>
        match result (convert type value converter) with
        | Return r =>
            put [cout_text "Converted value: "; cout_fixed;
                 cout_setprecision 2; cout_double r; cout_text nl] io
        | Throw e =>
            put [cerr_text "Error: "; cerr_text (what e); cerr_text nl] io
        end
    end.

Definition convertDistance (converter : UnitConverter) (io : console)
  : console :=
  let value := indeterminate_double in
  let io := put [cout_text "Enter distance value: "] io in
  let '(ok, value, io) := safeReadDouble value io in
  if negb ok
  then put [cerr_text ("Invalid input. Please enter a numeric value." +:+ nl)] io
  else
    let io := put [cout_text ("Choose conversion type:" +:+ nl);
                   cout_text ("1. KilometersToMiles" +:+ nl);
                   cout_text ("2. MilesToKilometers" +:+ nl);
                   cout_text ("3. MetersToFeet" +:+ nl);
                   cout_text ("4. FeetToMeters" +:+ nl);
                   cout_text "Enter choice: "] io in
    let (choice, s) := extract_int (cin io) indeterminate_int in
    let io := with_cin s io in
    match match choice with
          | 1 => Some "KilometersToMiles"
          | 2 => Some "MilesToKilometers"
          | 3 => Some "MetersToFeet"
          | 4 => Some "FeetToMeters"
          | _ => None
          end%Z
    with
    | None => put [cerr_text ("Invalid conversion selection." +:+ nl)] io
    | Some type =>
        match result (convert type value converter) with
        | Return r =>
            put [cout_text "Converted value: "; cout_fixed;
                 cout_setprecision 2; cout_double r; cout_text nl] io
        | Throw e =>
            put [cerr_text "Error: "; cerr_text (what e); cerr_text nl] io
        end
    end.

Definition convertWeight (converter : UnitConverter) (io : console)
  : console :=
  let value := indeterminate_double in
  let io := put [cout_text "Enter weight value: "] io in
  let '(ok, value, io) := safeReadDouble value io in
  if negb ok
  then put [cerr_text ("Invalid input. Please enter a numeric value." +:+ nl)] io
  else
    let io := put [cout_text ("Choose conversion type:" +:+ nl);
                   cout_text ("1. KilogramsToPounds" +:+ nl);
                   cout_text ("2. PoundsToKilograms" +:+ nl);
                   cout_text ("3. GramsToOunces" +:+ nl);
                   cout_text ("4. OuncesToGrams" +:+ nl);
                   cout_text "Enter choice: "] io in
    let (choice, s) := extract_int (cin io) indeterminate_int in
    let io := with_cin s io in
    match match choice with
          | 1 => Some "KilogramsToPounds"
          | 2 => Some "PoundsToKilograms"
          | 3 => Some "GramsToOunces"
          | 4 => Some "OuncesToGrams"
          | _ => None
          end%Z
    with
    | None => put [cerr_text ("Invalid conversion selection." +:+ nl)] io
    | Some type =>
        match result (convert type value converter) with
        | Return r =>
            put [cout_text "Converted value: "; cout_fixed;
                 cout_setprecision 2; cout_double r; cout_text nl] io
        | Throw e =>
            put [cerr_text "Error: "; cerr_text (what e); cerr_text nl] io
        end
    end.

Definition convertVolume (converter : UnitConverter) (io : console)
  : console :=
  let value := indeterminate_double in
  let io := put [cout_text "Enter volume value: "] io in
  let '(ok, value, io) := safeReadDouble value io in
  if negb ok
  then put [cerr_text ("Invalid input. Please enter a numeric value." +:+ nl)] io
  else
    let io := put [cout_text ("Choose conversion type:" +:+ nl);
                   cout_text ("1. LitersToGallons" +:+ nl);
                   cout_text ("2. GallonsToLiters" +:+ nl);
                   cout_text ("3. MillilitersToFluidOunces" +:+ nl);
                   cout_text ("4. FluidOuncesToMilliliters" +:+ nl);
                   cout_text "Enter choice: "] io in
    let (choice, s) := extract_int (cin io) indeterminate_int in
    let io := with_cin s io in
    match match choice with
          | 1 => Some "LitersToGallons"
          | 2 => Some "GallonsToLiters"
          | 3 => Some "MillilitersToFluidOunces"
          | 4 => Some "FluidOuncesToMilliliters"
          | _ => None
          end%Z
    with
    | None => put [cerr_text ("Invalid conversion selection." +:+ nl)] io
    | Some type =>
        match result (convert type value converter) with
        | Return r =>
            put [cout_text "Converted value: "; cout_fixed;
                 cout_setprecision 2; cout_double r; cout_text nl] io
        | Throw e =>
            put [cerr_text "Error: "; cerr_text (what e); cerr_text nl] io
        end
    end.

Definition displayMenu (io : console) : console :=
  put [cout_text (nl +:+ "Unit Converter" +:+ nl);
       cout_text ("1. Convert Temperature" +:+ nl);
       cout_text ("2. Convert Distance" +:+ nl);
       cout_text ("3. Convert Weight" +:+ nl);
       cout_text ("4. Convert Volume" +:+ nl);
       cout_text ("5. Exit" +:+ nl);
       cout_text "Choose an option: "] io.


(** One pass through the body of the [do ... while] of [main]: either
    [return 0] is executed ([inl]), or control reaches the loop condition
    ([inr]) with [choice] as it then is. *)
Definition main_body (converter : UnitConverter) (choice : Z) (io : console)
  : (Z * console) + (Z * console) :=
  let io := displayMenu io in
  let (choice, s) := extract_int (cin io) choice in
  let io := with_cin s io in
  if fail s
  then
    let io := with_cin (ignore_line (clear s)) io in
    let io := put [cerr_text ("Invalid input. Please enter a number corresponding to the menu option." +:+ nl)] io in
    inr (choice, io)                                  (* continue *)
  else
    match choice with
    | 1 => inr (choice, convertTemperature converter io)
    | 2 => inr (choice, convertDistance converter io)
    | 3 => inr (choice, convertWeight converter io)
    | 4 => inr (choice, convertVolume converter io)
    | 5 => inl (0, put [cout_text ("Exiting..." +:+ nl)] io)
    | _ => inr (choice,
                put [cerr_text ("Invalid option. Please try again." +:+ nl)] io)
    end%Z.

(** The loop of [main], for at most [fuel] passes; [None] when the
    passes run out before [main] returns. *)
Fixpoint main_loop (fuel : nat) (converter : UnitConverter) (choice : Z)
    (io : console) : option (Z * console) :=
  match fuel with
  | O => None
  | S fuel =>
      match main_body converter choice io with
      | inl returned => Some returned
      | inr (choice, io) =>
          if (choice =? 5)%Z                          (* while (choice != 5) *)
          then Some (0%Z, io)                          (* return 0 *)
          else main_loop fuel converter choice io
      end
  end.

(** [int main()] *)
Definition main (fuel : nat) (io : console) : option (Z * console) :=
  let converter := UnitConverter_new in
  main_loop fuel converter indeterminate_int io.

(** The four functions that [main] dispatches to, in menu order. *)
Definition category_functions : list (UnitConverter -> console -> console) :=
  [convertTemperature; convertDistance; convertWeight; convertVolume].

(** The prompts of the four functions, in the same order. *)
Definition category_prompts : list string :=
  [ "Enter temperature value: "; "Enter distance value: ";
    "Enter weight value: "; "Enter volume value: " ].

(** The menu a category function shows for its four names. *)
Definition menu_lines (names : list string) : list output :=
  cout_text ("Choose conversion type:" +:+ nl)
  :: imap (fun i name =>
             cout_text (String (ascii_of_nat (49 + i)) ". " +:+ name +:+ nl))
          names
  ++ [cout_text "Enter choice: "].

(** What a category function writes once [convert] has ended. *)
Definition report (r : outcome double) : list output :=
  match r with
  | Return r =>
      [cout_text "Converted value: "; cout_fixed; cout_setprecision 2;
       cout_double r; cout_text nl]
  | Throw e => [cerr_text "Error: "; cerr_text (what e); cerr_text nl]
  end.

(** The range errors of the four categories, in the same order. *)
Definition category_errors : list exception :=
  [BelowAbsoluteZero; NegativeDistance; NegativeWeight; NegativeVolume].

(** The strings written to [std::cerr] among some outputs. *)
Definition cerr_texts (os : list output) : list string :=
  omap (fun o => match o with cerr_text s => Some s | _ => None end) os.

(** The doubles written to [std::cout] among some outputs. *)
Definition cout_doubles (os : list output) : list double :=
  omap (fun o => match o with cout_double d => Some d | _ => None end) os.
End Console.

Arguments console : clear implicits.

(** *** A scripted stream

    An instance of [Runtime] to exhibit inputs with: the input already
    cut into tokens. An extraction skips line ends; a number is read; on
    anything else, or at the end of the input, or when the stream has
    failed already, the extraction fails and consumes nothing. *)
Inductive token : Type :=
| number (d : double) (z : Z)
| garbage
| line_end.

Record script : Type := MkScript {
  pending : list token;
  failbit : bool
}.

Fixpoint skip_line_ends (ts : list token) : list token :=
  match ts with
  | line_end :: rest => skip_line_ends rest
  | _ => ts
  end.

Fixpoint skip_line (ts : list token) : list token :=
  match ts with
  | [] => []
  | line_end :: rest => rest
  | _ :: rest => skip_line rest
  end.

Definition script_extract {A : Type} (get : double -> Z -> A) (zero : A)
    (s : script) (old : A) : A * script :=
  if failbit s then (old, s)
  else match skip_line_ends (pending s) with
       | number d z :: rest => (get d z, MkScript rest false)
       | garbage :: rest => (zero, MkScript (garbage :: rest) true)
       | _ => (old, MkScript [] true)
       end.

#[global] Instance script_runtime : Runtime script := {
  extract_double := script_extract (fun d _ => d) 0%float;
  extract_int := script_extract (fun _ z => z) 0%Z;
  fail := failbit;
  clear := fun s => MkScript (pending s) false;
  ignore_line := fun s => MkScript (skip_line (pending s)) (failbit s);
  indeterminate_double := 0%float;
  indeterminate_int := 0%Z
}.

(** A double, in its specification form, that is a zero or a finite
    number [m * 2^e] with [e <= K]. *)
Definition SFbounded (K : Z) (f : spec_float) : Prop :=
  match f with
  | S754_zero _ => True
  | S754_finite _ _ e => (e <= K)%Z
  | _ => False
  end.

(** [finite_upto K x]: [x] is a zero or a finite double of exponent at
    most [K]; in particular neither NaN nor an infinity. *)
Definition finite_upto (K : Z) (x : double) : Prop := SFbounded K (Prim2SF x).

(** [std::isinf]. *)
Definition isinf (x : double) : bool := is_infinity x.

(** A double, in its specification form, that is a zero, a positive
    finite number or plus infinity. *)
Definition SFnonneg (f : spec_float) : Prop :=
  match f with
  | S754_zero _ | S754_infinity false | S754_finite false _ _ => True
  | _ => False
  end.

(** A double, in its specification form, that is minus infinity or a
    negative finite number [- m * 2^e] with [L <= e]. *)
Definition SFbelow (L : Z) (f : spec_float) : Prop :=
  match f with
  | S754_infinity true => True
  | S754_finite true _ e => (L <= e)%Z
  | _ => False
  end.

(** The four registration functions the constructor runs. *)
Definition category_registrations : list (method unit) :=
  [ registerTemperatureConversions; registerDistanceConversions;
    registerWeightConversions; registerVolumeConversions ].

(** ** The reals that doubles stand for

    A finite double [(s, m, e)] stands for the real [(-1)^s * m * 2^e].
    The order and the rounding of doubles are stated against these reals
    in the round-trip property. *)

(** [2^e] *)
Definition bpow (e : Z) : R := powerRZ 2 e.

(** The real a double stands for, in its specification form; 0 for the
    infinities and NaN. *)
Definition SF2R (f : spec_float) : R :=
  match f with
  | S754_finite s m e => (IZR (cond_Zopp s (Zpos m)) * bpow e)%R
  | _ => 0%R
  end.

(** A zero or a finite number. *)
Definition SFfinite (f : spec_float) : Prop :=
  match f with
  | S754_zero _ | S754_finite _ _ _ => True
  | _ => False
  end.

Definition B2R (x : double) : R := SF2R (Prim2SF x).

Definition finite_double (x : double) : Prop := SFfinite (Prim2SF x).

(** * Properties *)

(** ** Order facts on doubles *)

Section DoubleOrder.
Local Open Scope float_scope.

Lemma SFcompare_antisym (x y : spec_float) (c : comparison) :
  SFcompare x y = Some c -> SFcompare y x = Some (CompOpp c).
Proof.
  destruct x as [sx|sx| |sx mx ex], y as [sy|sy| |sy my ey];
    try discriminate;
    try (simpl; intros [= <-]; destruct sx; try destruct sy; reflexivity);
    try (simpl; intros [= <-]; destruct sy; reflexivity).
  simpl. intros [= <-]. f_equal.
  assert (Hm : Pos.compare_cont Eq my mx = CompOpp (Pos.compare_cont Eq mx my))
    by (rewrite Pos.compare_cont_antisym; reflexivity).
  rewrite (Z.compare_antisym ex ey), Hm.
  destruct sx, sy; simpl; try reflexivity;
    destruct (ex ?= ey)%Z; simpl; try reflexivity;
    destruct (Pos.compare_cont Eq mx my); reflexivity.
Qed.

(** [a <= b] rules out [b < a] (and says that neither is NaN). *)
Lemma leb_not_gt (a b : double) : (a <=? b) = true -> (b <? a) = false.
Proof.
  rewrite leb_spec, ltb_spec. unfold SFleb, SFltb.
  destruct (SFcompare (Prim2SF a) (Prim2SF b)) as [c|] eqn:E; [|discriminate].
  rewrite (SFcompare_antisym _ _ _ E).
  destruct c; simpl; congruence.
Qed.

Lemma clamp_in_range (v : double) :
  (-1e6 <=? v) = true -> (v <=? 1e6) = true -> clamp v = v.
Proof.
  intros Hlo Hhi. unfold clamp.
  rewrite (leb_not_gt _ _ Hhi), (leb_not_gt _ _ Hlo). reflexivity.
Qed.

End DoubleOrder.

(** ** Rounding in binary64

    The arithmetic of doubles is specified by [SpecFloat]: every operation
    computes an exact integer mantissa and exponent and rounds them with
    [binary_round_aux]. The lemmas below bound the exponent of the rounded
    result, which is what keeps a result away from the infinities. *)

Section Rounding64.
Local Open Scope Z_scope.

Lemma digits2_pos_size (p : positive) : digits2_pos p = Pos.size p.
Proof. induction p; simpl; congruence. Qed.

Lemma Zpos_lt_pow2_digits (p : positive) : Zpos p < 2 ^ Zpos (digits2_pos p).
Proof.
  rewrite digits2_pos_size.
  induction p as [p IH|p IH|]; simpl Pos.size;
    rewrite ?Pos2Z.inj_succ, ?Z.pow_succ_r by lia; lia.
Qed.

Lemma Zpos_ge_pow2_digits (p : positive) : 2 ^ (Zpos (digits2_pos p) - 1) <= Zpos p.
Proof.
  rewrite digits2_pos_size.
  induction p as [p IH|p IH|]; simpl Pos.size; [| |simpl; lia];
    rewrite Pos2Z.inj_succ;
    replace (Z.succ (Zpos (Pos.size p)) - 1) with (Z.succ (Zpos (Pos.size p) - 1)) by lia;
    rewrite Z.pow_succ_r by lia; lia.
Qed.

(** A nonnegative integer below [2^k] has at most [k] binary digits. *)
Lemma Zdigits2_le (m k : Z) : 0 <= m -> 0 <= k -> m < 2 ^ k -> Zdigits2 m <= k.
Proof.
  intros Hm Hk Hlt. destruct m as [|p|p]; simpl; [lia| |lia].
  destruct (Z_le_gt_dec (Zpos (digits2_pos p)) k) as [|Hgt]; [assumption|].
  pose proof (Zpos_ge_pow2_digits p) as Hge.
  assert (2 ^ k <= 2 ^ (Zpos (digits2_pos p) - 1)) by (apply Z.pow_le_mono_r; lia).
  lia.
Qed.

Lemma Zdigits2_lt_pow2 (m : Z) : 0 <= m -> m < 2 ^ Zdigits2 m.
Proof.
  intros Hm. destruct m as [|p|p]; simpl; [lia| |lia].
  apply Zpos_lt_pow2_digits.
Qed.

Lemma Zdigits2_nonneg (m : Z) : 0 <= Zdigits2 m.
Proof. destruct m; simpl; lia. Qed.

Lemma shr_1_m (mrs : shr_record) :
  0 <= shr_m mrs -> shr_m (shr_1 mrs) = shr_m mrs / 2.
Proof.
  destruct mrs as [m r s]. cbn [shr_m shr_1]. intros Hm.
  destruct m as [|[p|p|]|p]; cbn [shr_m]; try lia; try reflexivity.
  - apply Z.div_unique with (r := 1); lia.
  - apply Z.div_unique with (r := 0); lia.
Qed.

Lemma pow2_xI (p : positive) : 2 ^ Zpos p~1 = 2 * (2 ^ Zpos p * 2 ^ Zpos p).
Proof. rewrite Pos2Z.inj_xI, <- Z.pow_add_r, <- Z.pow_succ_r by lia. f_equal. lia. Qed.

Lemma pow2_xO (p : positive) : 2 ^ Zpos p~0 = 2 ^ Zpos p * 2 ^ Zpos p.
Proof. rewrite Pos2Z.inj_xO, <- Z.pow_add_r by lia. f_equal. lia. Qed.

Lemma iter_shr_1_m (p : positive) (mrs : shr_record) :
  0 <= shr_m mrs ->
  shr_m (SpecFloat.iter_pos shr_1 p mrs) = shr_m mrs / 2 ^ Zpos p.
Proof.
  revert mrs. induction p as [p IH|p IH|]; intros mrs Hm; cbn [SpecFloat.iter_pos].
  - assert (Hp : 0 < 2 ^ Zpos p) by (apply Z.pow_pos_nonneg; lia).
    assert (H1 : 0 <= shr_m (shr_1 mrs)) by (rewrite shr_1_m by lia; apply Z.div_pos; lia).
    assert (H2 : 0 <= shr_m (SpecFloat.iter_pos shr_1 p (shr_1 mrs)))
      by (rewrite IH by lia; apply Z.div_pos; lia).
    rewrite IH, IH, shr_1_m by lia.
    rewrite !Z.div_div by lia.
    rewrite pow2_xI. reflexivity.
  - assert (Hp : 0 < 2 ^ Zpos p) by (apply Z.pow_pos_nonneg; lia).
    assert (H2 : 0 <= shr_m (SpecFloat.iter_pos shr_1 p mrs))
      by (rewrite IH by lia; apply Z.div_pos; lia).
    rewrite IH, IH by lia.
    rewrite !Z.div_div by lia.
    rewrite pow2_xO. reflexivity.
  - rewrite shr_1_m by lia. reflexivity.
Qed.

(** The binary64 instance of [fexp]. *)
Lemma fexp64 (e : Z) : fexp prec emax e = Z.max (e - 53) (-1074).
Proof. reflexivity. Qed.

(** One normalizing shift: the mantissa stays nonnegative and fits in 53
    bits, the exponent is the larger of the old one and the canonical one. *)
Lemma shr_fexp_spec (m e : Z) (l : location) :
  0 <= m ->
  0 <= shr_m (fst (shr_fexp prec emax m e l)) < 2 ^ 53 /\
  snd (shr_fexp prec emax m e l) = Z.max e (fexp prec emax (Zdigits2 m + e)).
Proof.
  intros Hm. unfold shr_fexp, shr. rewrite fexp64.
  pose proof (Zdigits2_lt_pow2 m Hm) as Hd.
  pose proof (Zdigits2_nonneg m) as Hd0.
  assert (Hrec : shr_m (shr_record_of_loc m l) = m)
    by (destruct l as [|[]]; reflexivity).
  destruct (Z.max (Zdigits2 m + e - 53) (-1074) - e) as [|n|n] eqn:En;
    cbn [fst snd].
  - rewrite Hrec. split; [|lia].
    split; [lia|].
    eapply Z.lt_le_trans; [exact Hd|]. apply Z.pow_le_mono_r; lia.
  - rewrite iter_shr_1_m by (rewrite Hrec; lia). rewrite Hrec.
    assert (Hp : 0 < 2 ^ Zpos n) by (apply Z.pow_pos_nonneg; lia).
    split; [|lia].
    split; [apply Z.div_pos; lia|].
    apply Z.div_lt_upper_bound; [lia|].
    rewrite <- Z.pow_add_r by lia.
    eapply Z.lt_le_trans; [exact Hd|]. apply Z.pow_le_mono_r; lia.
  - rewrite Hrec. split; [|lia].
    split; [lia|].
    eapply Z.lt_le_trans; [exact Hd|]. apply Z.pow_le_mono_r; lia.
Qed.

Lemma round_nearest_even_range (m : Z) (l : location) :
  m <= round_nearest_even m l <= m + 1.
Proof.
  unfold round_nearest_even.
  destruct l as [|[]]; try destruct (Z.even m); lia.
Qed.

(** Rounding a nonnegative mantissa: the result is a zero or a finite
    number, one exponent step above the canonical exponent at most, as
    long as that stays within the format. *)
Lemma binary_round_aux_bounded (sx : bool) (mx ex : Z) (lx : location) (K : Z) :
  0 <= mx ->
  Z.max ex (fexp prec emax (Zdigits2 mx + ex)) + 1 <= K -> K <= 971 ->
  SFbounded K (binary_round_aux prec emax sx mx ex lx).
Proof.
  intros Hm HK HK'. unfold binary_round_aux.
  pose proof (shr_fexp_spec mx ex lx Hm) as [Hm1 He1].
  destruct (shr_fexp prec emax mx ex lx) as [mrs1 e1]. cbn [fst snd] in Hm1, He1.
  pose proof (round_nearest_even_range (shr_m mrs1) (loc_of_shr_record mrs1)) as Hr.
  set (m1 := round_nearest_even (shr_m mrs1) (loc_of_shr_record mrs1)) in *.
  assert (Hm1' : 0 <= m1) by lia.
  pose proof (shr_fexp_spec m1 e1 loc_Exact Hm1') as [Hm2 He2].
  destruct (shr_fexp prec emax m1 e1 loc_Exact) as [mrs2 e2].
  cbn [fst snd] in Hm2, He2.
  assert (Hd1 : Zdigits2 m1 <= 54).
  { apply Zdigits2_le; [lia|lia|].
    change (2 ^ 54) with (2 * 2 ^ 53). lia. }
  rewrite fexp64 in *.
  assert (He : e2 <= K) by lia.
  destruct (shr_m mrs2) as [|p|p]; [exact I| |lia].
  replace (e2 <=? emax - prec) with true; [exact He|].
  symmetry. apply Z.leb_le. change (emax - prec) with 971. lia.
Qed.

Lemma SFbounded_weaken (K K' : Z) (f : spec_float) :
  SFbounded K f -> K <= K' -> SFbounded K' f.
Proof. destruct f; simpl; try tauto. lia. Qed.

(** What validity says about a finite double. *)
Lemma valid_binary_finite (s : bool) (m : positive) (e : Z) :
  valid_binary (S754_finite s m e) = true ->
  Zpos m < 2 ^ 53 /\ -1074 <= e <= 971.
Proof.
  unfold SpecFloat.valid_binary, bounded, canonical_mantissa.
  rewrite fexp64. intros H.
  apply andb_prop in H as [Hc He].
  apply Z.eqb_eq in Hc. apply Z.leb_le in He.
  change (emax - prec) with 971 in He.
  split; [|lia].
  eapply Z.lt_le_trans; [apply Zpos_lt_pow2_digits|].
  apply Z.pow_le_mono_r; lia.
Qed.

Lemma fexp_mono (a b : Z) : a <= b -> fexp prec emax a <= fexp prec emax b.
Proof. rewrite !fexp64. lia. Qed.

(** *** Multiplication *)

Lemma SFmul_bounded (x y : spec_float) (Kx Ky K : Z) :
  valid_binary x = true -> valid_binary y = true ->
  SFbounded Kx x -> SFbounded Ky y ->
  Z.max (Kx + Ky + 53) (-1074) + 1 <= K -> K <= 971 ->
  SFbounded K (SF64mul x y).
Proof.
  intros Vx Vy Bx By HK HK'.
  destruct x as [sx|sx| |sx mx ex], y as [sy|sy| |sy my ey];
    simpl in Bx, By; try contradiction; try exact I.
  apply valid_binary_finite in Vx as [Hmx _], Vy as [Hmy _].
  unfold SF64mul, SFmul. apply binary_round_aux_bounded; [lia| |exact HK'].
  assert (Hd : Zdigits2 (Zpos (mx * my)) <= 106).
  { apply Zdigits2_le; [lia|lia|].
    rewrite Pos2Z.inj_mul. change (2 ^ 106) with (2 ^ 53 * 2 ^ 53).
    apply Z.mul_lt_mono_nonneg; lia. }
  rewrite fexp64. lia.
Qed.

(** *** Division by a finite nonzero double *)

Lemma SFdiv_bounded (x : spec_float) (sy : bool) (my : positive) (ey : Z)
    (Kx K : Z) :
  valid_binary x = true ->
  SFbounded Kx x ->
  Z.max (Kx - ey) (-1074) + 1 <= K -> K <= 971 ->
  SFbounded K (SF64div x (S754_finite sy my ey)).
Proof.
  intros Vx Bx HK HK'.
  destruct x as [sx|sx| |sx mx ex]; simpl in Bx; try contradiction; try exact I.
  apply valid_binary_finite in Vx as [Hmx _].
  unfold SF64div, SFdiv, SFdiv_core_binary. rewrite fexp64.
  set (e' := Z.min _ (ex - ey)).
  set (s := ex - ey - e').
  set (m' := match s with Z0 => Zpos mx | Zpos _ => Z.shiftl (Zpos mx) s | Zneg _ => 0 end).
  assert (Hs : 0 <= s) by (unfold s, e'; lia).
  assert (Hm' : 0 <= m' < 2 ^ (53 + s)).
  { unfold m'. destruct s as [|n|n] eqn:Es; [| |lia].
    - change (2 ^ (53 + 0)) with (2 ^ 53). lia.
    - rewrite Z.shiftl_mul_pow2 by lia. rewrite Z.pow_add_r by lia.
      assert (0 < 2 ^ Zpos n) by (apply Z.pow_pos_nonneg; lia).
      split; [lia|]. apply Z.mul_lt_mono_pos_r; lia. }
  pose proof (Z.div_pos m' (Zpos my) (proj1 Hm') (Pos2Z.is_pos my)) as Hq0.
  assert (Hq1 : m' / Zpos my <= m').
  { apply Z.div_le_upper_bound; [lia|]. nia. }
  unfold Z.div in Hq0, Hq1.
  destruct (Z.div_eucl m' (Zpos my)) as [q r].
  apply binary_round_aux_bounded; [exact Hq0| |exact HK'].
  assert (Hd : Zdigits2 q <= 53 + s) by (apply Zdigits2_le; lia).
  rewrite fexp64. unfold s in *. lia.
Qed.

(** *** Addition and subtraction *)

Lemma Pos_iter_xO (m d : positive) : Zpos (Pos.iter xO m d) = Zpos m * 2 ^ Zpos d.
Proof.
  induction d as [|d IH] using Pos.peano_ind.
  - simpl. lia.
  - rewrite Pos.iter_succ, Pos2Z.inj_xO, IH, Pos2Z.inj_succ, Z.pow_succ_r by lia.
    lia.
Qed.

(** Aligning a mantissa to a smaller exponent keeps the value. *)
Lemma shl_align_spec (mx : positive) (ex ex' : Z) :
  snd (shl_align mx ex ex') = Z.min ex ex' /\
  Zpos (fst (shl_align mx ex ex')) = Zpos mx * 2 ^ (ex - Z.min ex ex').
Proof.
  unfold shl_align.
  destruct (ex' - ex) as [|d|d] eqn:Ed; cbn [fst snd].
  - replace (Z.min ex ex') with ex by lia. rewrite Z.sub_diag. lia.
  - replace (Z.min ex ex') with ex by lia. rewrite Z.sub_diag. lia.
  - replace (Z.min ex ex') with ex' by lia.
    rewrite Pos_iter_xO. split; [reflexivity|]. f_equal. f_equal. lia.
Qed.

Lemma binary_round_bounded (sx : bool) (p : positive) (e K : Z) :
  Z.max e (fexp prec emax (Zpos (digits2_pos p) + e)) + 1 <= K -> K <= 971 ->
  SFbounded K (binary_round prec emax sx p e).
Proof.
  intros HK HK'. unfold binary_round.
  pose proof (shl_align_spec p e (fexp prec emax (Zpos (digits2_pos p) + e)))
    as [He Hm].
  destruct (shl_align p e (fexp prec emax (Zpos (digits2_pos p) + e))) as [mz ez].
  cbn [fst snd] in He, Hm.
  apply binary_round_aux_bounded; [lia| |exact HK'].
  assert (Hd : Zdigits2 (Zpos mz) <= Zpos (digits2_pos p) + (e - ez)).
  { apply Zdigits2_le; [lia|lia|].
    rewrite Hm, He, Z.pow_add_r by lia.
    apply Z.mul_lt_mono_pos_r; [apply Z.pow_pos_nonneg; lia|].
    apply Zpos_lt_pow2_digits. }
  pose proof (fexp_mono (Zdigits2 (Zpos mz) + ez) (Zpos (digits2_pos p) + e)).
  lia.
Qed.

Lemma binary_normalize_bounded (m e : Z) (szero : bool) (K : Z) :
  Z.max e (fexp prec emax (Zdigits2 m + e)) + 1 <= K -> K <= 971 ->
  SFbounded K (binary_normalize prec emax m e szero).
Proof.
  intros HK HK'. unfold binary_normalize.
  destruct m as [|p|p]; [exact I| |]; apply binary_round_bounded; assumption.
Qed.

Lemma Zdigits2_abs_le (m k : Z) : 0 <= k -> Z.abs m < 2 ^ k -> Zdigits2 m <= k.
Proof.
  intros Hk H. destruct m as [|p|p]; simpl in *; [lia| |];
    apply (Zdigits2_le (Zpos p) k); lia.
Qed.

(** The aligned sum or difference of two finite doubles. *)
Lemma aligned_sum_bounded (sx sy : bool) (mx my : positive) (ex ey : Z)
    (op : Z -> Z -> Z) (K : Z) :
  (forall a b : Z, Z.abs (op a b) <= Z.abs a + Z.abs b) ->
  Zpos mx < 2 ^ 53 -> Zpos my < 2 ^ 53 -> -1074 <= ex -> -1074 <= ey ->
  Z.max ex ey + 2 <= K -> K <= 971 ->
  SFbounded K
    (binary_normalize prec emax
       (op (cond_Zopp sx (Zpos (fst (shl_align mx ex (Z.min ex ey)))))
           (cond_Zopp sy (Zpos (fst (shl_align my ey (Z.min ex ey))))))
       (Z.min ex ey) false).
Proof.
  intros Hop Hmx Hmy Hex Hey HK HK'.
  pose proof (shl_align_spec mx ex (Z.min ex ey)) as [_ Ha].
  pose proof (shl_align_spec my ey (Z.min ex ey)) as [_ Hb].
  set (A := Zpos (fst (shl_align mx ex (Z.min ex ey)))) in *.
  set (B := Zpos (fst (shl_align my ey (Z.min ex ey)))) in *.
  set (ez := Z.min ex ey) in *.
  replace (Z.min ex ez) with ez in Ha by lia.
  replace (Z.min ey ez) with ez in Hb by lia.
  set (k := 54 + Z.max ex ey - ez).
  assert (HA : A < 2 ^ (k - 1)).
  { rewrite Ha. eapply Z.lt_le_trans with (2 ^ 53 * 2 ^ (ex - ez)).
    - apply Z.mul_lt_mono_pos_r; [apply Z.pow_pos_nonneg; lia|lia].
    - rewrite <- Z.pow_add_r by lia. apply Z.pow_le_mono_r; lia. }
  assert (HB : B < 2 ^ (k - 1)).
  { rewrite Hb. eapply Z.lt_le_trans with (2 ^ 53 * 2 ^ (ey - ez)).
    - apply Z.mul_lt_mono_pos_r; [apply Z.pow_pos_nonneg; lia|lia].
    - rewrite <- Z.pow_add_r by lia. apply Z.pow_le_mono_r; lia. }
  assert (Hk : 2 ^ k = 2 * 2 ^ (k - 1)).
  { rewrite <- Z.pow_succ_r by lia. f_equal. lia. }
  assert (Hd : Zdigits2 (op (cond_Zopp sx A) (cond_Zopp sy B)) <= k).
  { apply Zdigits2_abs_le; [lia|].
    pose proof (Hop (cond_Zopp sx A) (cond_Zopp sy B)) as Habs.
    assert (Z.abs (cond_Zopp sx A) = A) by (unfold A; destruct sx; simpl; lia).
    assert (Z.abs (cond_Zopp sy B) = B) by (unfold B; destruct sy; simpl; lia).
    lia. }
  apply binary_normalize_bounded; [|exact HK'].
  rewrite fexp64. unfold k in Hd. lia.
Qed.

Lemma SFadd_bounded (x y : spec_float) (Kx Ky K : Z) :
  valid_binary x = true -> valid_binary y = true ->
  SFbounded Kx x -> SFbounded Ky y ->
  Z.max Kx Ky + 2 <= K -> K <= 971 ->
  SFbounded K (SF64add x y).
Proof.
  intros Vx Vy Bx By HK HK'.
  destruct x as [sx|sx| |sx mx ex], y as [sy|sy| |sy my ey];
    simpl in Bx, By; try contradiction.
  - destruct sx, sy; exact I.
  - simpl. lia.
  - simpl. lia.
  - apply valid_binary_finite in Vx as [Hmx Hex], Vy as [Hmy Hey].
    unfold SF64add, SFadd.
    apply (aligned_sum_bounded sx sy mx my ex ey Z.add); try lia.
Qed.

Lemma SFsub_bounded (x y : spec_float) (Kx Ky K : Z) :
  valid_binary x = true -> valid_binary y = true ->
  SFbounded Kx x -> SFbounded Ky y ->
  Z.max Kx Ky + 2 <= K -> K <= 971 ->
  SFbounded K (SF64sub x y).
Proof.
  intros Vx Vy Bx By HK HK'.
  destruct x as [sx|sx| |sx mx ex], y as [sy|sy| |sy my ey];
    simpl in Bx, By; try contradiction.
  - destruct sx, sy; exact I.
  - simpl. lia.
  - simpl. lia.
  - apply valid_binary_finite in Vx as [Hmx Hex], Vy as [Hmy Hey].
    unfold SF64sub, SFsub.
    apply (aligned_sum_bounded sx sy mx my ex ey Z.sub); try lia.
Qed.

End Rounding64.

(** ** Finite doubles *)

Section FiniteDoubles.
Local Open Scope Z_scope.

Lemma mul_finite_upto (x c : float) (Kx Kc K : Z) :
  finite_upto Kx x -> finite_upto Kc c ->
  Z.max (Kx + Kc + 53) (-1074) + 1 <= K -> K <= 971 ->
  finite_upto K (x * c).
Proof.
  unfold finite_upto. rewrite mul_spec.
  apply SFmul_bounded; apply Prim2SF_valid.
Qed.

Lemma div_finite_upto (x c : float) (sc : bool) (mc : positive) (ec : Z)
    (Kx K : Z) :
  finite_upto Kx x -> Prim2SF c = S754_finite sc mc ec ->
  Z.max (Kx - ec) (-1074) + 1 <= K -> K <= 971 ->
  finite_upto K (x / c).
Proof.
  unfold finite_upto. rewrite div_spec. intros Bx ->.
  apply SFdiv_bounded; [apply Prim2SF_valid|exact Bx].
Qed.

Lemma add_finite_upto (x c : float) (Kx Kc K : Z) :
  finite_upto Kx x -> finite_upto Kc c ->
  Z.max Kx Kc + 2 <= K -> K <= 971 ->
  finite_upto K (x + c).
Proof.
  unfold finite_upto. rewrite add_spec.
  apply SFadd_bounded; apply Prim2SF_valid.
Qed.

Lemma sub_finite_upto (x c : float) (Kx Kc K : Z) :
  finite_upto Kx x -> finite_upto Kc c ->
  Z.max Kx Kc + 2 <= K -> K <= 971 ->
  finite_upto K (x - c).
Proof.
  unfold finite_upto. rewrite sub_spec.
  apply SFsub_bounded; apply Prim2SF_valid.
Qed.

Lemma is_nan_Prim2SF (x : float) : is_nan x = true <-> Prim2SF x = S754_nan.
Proof.
  unfold is_nan. rewrite FloatAxioms.eqb_spec. unfold SFeqb.
  destruct (Prim2SF x) as [s|s| |s m e]; simpl.
  - split; discriminate.
  - destruct s; simpl; split; discriminate.
  - split; reflexivity.
  - rewrite Z.compare_refl, Pos.compare_cont_refl.
    destruct s; simpl; split; discriminate.
Qed.

Lemma finite_upto_is_finite (K : Z) (x : float) :
  finite_upto K x -> is_nan x = false /\ is_infinity x = false.
Proof.
  unfold finite_upto. intros B. split.
  - destruct (is_nan x) eqn:E; [|reflexivity].
    apply is_nan_Prim2SF in E. rewrite E in B. contradiction.
  - unfold is_infinity. rewrite FloatAxioms.eqb_spec, abs_spec.
    destruct (Prim2SF x) as [s|s| |s m e]; simpl in B; try contradiction;
      reflexivity.
Qed.

(** The clamp leaves a zero or a finite double of magnitude at most 1e6,
    unless its input is NaN. *)
Lemma clamp_finite_upto (x : float) :
  is_nan x = false -> finite_upto (-33) (clamp x).
Proof.
  intros Hnan. unfold clamp, finite_upto.
  destruct (1e6 <? x)%float eqn:Hhi; [vm_compute; discriminate|].
  destruct (x <? -1e6)%float eqn:Hlo; [vm_compute; discriminate|].
  rewrite FloatAxioms.ltb_spec in Hhi, Hlo.
  assert (Hn : Prim2SF x <> S754_nan).
  { intros E. apply is_nan_Prim2SF in E. congruence. }
  change (Prim2SF 1e6) with (S754_finite false 8589934592000000 (-33)) in Hhi.
  change (Prim2SF (-1e6)) with (S754_finite true 8589934592000000 (-33)) in Hlo.
  destruct (Prim2SF x) as [s|s| |s m e]; simpl; [exact I| |congruence|].
  - destruct s; [discriminate Hlo|discriminate Hhi].
  - unfold SFltb, SFcompare in Hhi, Hlo.
    destruct s.
    + destruct (Z.compare_spec e (-33)) as [E|E|E];
        [lia | lia | discriminate Hlo].
    + destruct (Z.compare_spec (-33) e) as [E|E|E];
        [lia | discriminate Hhi | lia].
Qed.

(** The same bounds with a constant second operand, in the form the
    formulas of the registry need. *)
Lemma mul_const_finite (x c : double) (sc : bool) (mc : positive) (ec : Z)
    (Kx : Z) :
  finite_upto Kx x -> Prim2SF c = S754_finite sc mc ec ->
  Z.max (Kx + ec + 53) (-1074) + 1 <= 971 ->
  finite_upto (Z.max (Kx + ec + 53) (-1074) + 1) (x * c).
Proof.
  intros Bx Ec HK. apply (mul_finite_upto x c Kx ec); try lia; try exact Bx.
  unfold finite_upto. rewrite Ec. simpl. lia.
Qed.

Lemma div_const_finite (x c : double) (sc : bool) (mc : positive) (ec : Z)
    (Kx : Z) :
  finite_upto Kx x -> Prim2SF c = S754_finite sc mc ec ->
  Z.max (Kx - ec) (-1074) + 1 <= 971 ->
  finite_upto (Z.max (Kx - ec) (-1074) + 1) (x / c).
Proof.
  intros Bx Ec HK. apply (div_finite_upto x c sc mc ec Kx); try lia; assumption.
Qed.

Lemma add_const_finite (x c : double) (sc : bool) (mc : positive) (ec : Z)
    (Kx : Z) :
  finite_upto Kx x -> Prim2SF c = S754_finite sc mc ec ->
  Z.max Kx ec + 2 <= 971 ->
  finite_upto (Z.max Kx ec + 2) (x + c).
Proof.
  intros Bx Ec HK. apply (add_finite_upto x c Kx ec); try lia; try exact Bx.
  unfold finite_upto. rewrite Ec. simpl. lia.
Qed.

Lemma sub_const_finite (x c : double) (sc : bool) (mc : positive) (ec : Z)
    (Kx : Z) :
  finite_upto Kx x -> Prim2SF c = S754_finite sc mc ec ->
  Z.max Kx ec + 2 <= 971 ->
  finite_upto (Z.max Kx ec + 2) (x - c).
Proof.
  intros Bx Ec HK. apply (sub_finite_upto x c Kx ec); try lia; try exact Bx.
  unfold finite_upto. rewrite Ec. simpl. lia.
Qed.
End FiniteDoubles.

(** Follows the shape of a formula, one operation at a time. *)
Ltac finite_formula :=
  lazymatch goal with
  | H : finite_upto _ ?x |- finite_upto _ ?x => exact H
  | |- finite_upto _ (_ * _)%float =>
      eapply mul_const_finite;
      [finite_formula | vm_compute; reflexivity | vm_compute; discriminate]
  | |- finite_upto _ (_ / _)%float =>
      eapply div_const_finite;
      [finite_formula | vm_compute; reflexivity | vm_compute; discriminate]
  | |- finite_upto _ (_ + _)%float =>
      eapply add_const_finite;
      [finite_formula | vm_compute; reflexivity | vm_compute; discriminate]
  | |- finite_upto _ (_ - _)%float =>
      eapply sub_const_finite;
      [finite_formula | vm_compute; reflexivity | vm_compute; discriminate]
  end.

(** ** Substring search *)

(** [found s pat] holds exactly when [pat] occurs in [s] at some position. *)
Lemma found_substring (s pat : string) :
  pat <> EmptyString ->
  found s pat = true <-> exists n : nat, substring n (String.length pat) s = pat.
Proof.
  intros Hne. unfold found, find.
  destruct (index 0 pat s) as [m|] eqn:E.
  - split; [intros _|reflexivity].
    exists m. exact (index_correct1 _ _ _ _ E).
  - split; [discriminate|].
    intros [n Hn]. exfalso.
    exact (index_correct3 0 n pat s E Hne (Nat.le_0_l n) Hn).
Qed.

(** ** The structure of [convert] *)

Ltac run_method :=
  cbv [mbind method_bind mret method_ret throw find_function when].

(** [convert] is: the range checks on the value as passed, then the clamp,
    then the lookup; and it hands the object back as it received it. *)
Lemma convert_unfold (name : string) (value : double) (self : UnitConverter) :
  convert name value self =
  (match validation name value with
   | Some e => Throw e
   | None => dispatch self name (clamp value)
   end, self).
Proof.
  unfold convert, validation, dispatch, clamp.
  fold (is_temperature name) (is_distance name) (is_weight name)
       (is_volume name) (normalized name value).
  run_method.
  destruct (is_temperature name), (is_distance name), (is_weight name),
    (is_volume name), (normalized name value <? -273.15)%float,
    (value <? 0)%float; simpl; try reflexivity;
    destruct (conversionFunctions self !! name); reflexivity.
Qed.

Lemma convert_result (name : string) (value : double) (self : UnitConverter) :
  result (convert name value self) =
  match validation name value with
  | Some e => Throw e
  | None => dispatch self name (clamp value)
  end.
Proof. rewrite convert_unfold. reflexivity. Qed.

Lemma convert_after (name : string) (value : double) (self : UnitConverter) :
  after (convert name value self) = self.
Proof. rewrite convert_unfold. reflexivity. Qed.

(** Evaluating a call: only the outcome needs computing. *)
Lemma convert_eval (name : string) (value : double) (self : UnitConverter)
    (r : outcome double) :
  match validation name value with
  | Some e => Throw e
  | None => dispatch self name (clamp value)
  end = r ->
  convert name value self = (r, self).
Proof. intros <-. apply convert_unfold. Qed.

Ltac eval_convert :=
  first [ apply convert_eval | rewrite convert_result ];
  vm_compute; reflexivity.

(** ** The registry built by the constructor *)

Lemma registry_is_spec_table :
  conversionFunctions UnitConverter_new = list_to_map spec_table.
Proof.
  vm_cast_no_check
    (@eq_refl _ (list_to_map (M := gmap string (double -> double)) spec_table)).
Qed.

Lemma registered_names_NoDup : NoDup registered_names.
Proof. apply (bool_decide_unpack _). vm_compute. exact I. Qed.

Lemma registry_lookup (name : string) (f : double -> double) :
  (name, f) ∈ spec_table ->
  conversionFunctions UnitConverter_new !! name = Some f.
Proof.
  intros Hin. rewrite registry_is_spec_table.
  apply elem_of_list_to_map_1; [exact registered_names_NoDup | exact Hin].
Qed.

Lemma registry_lookup_None (name : string) :
  name ∉ registered_names ->
  conversionFunctions UnitConverter_new !! name = None.
Proof.
  intros Hnot. rewrite registry_is_spec_table.
  apply not_elem_of_list_to_map_1. exact Hnot.
Qed.

(** A value that passes the checks and lies within the clamp bounds goes
    to the registered formula as it is. *)
Lemma convert_in_range (name : string) (f : double -> double) (v : double) :
  (name, f) ∈ spec_table ->
  validation name v = None ->
  (-1e6 <=? v)%float = true -> (v <=? 1e6)%float = true ->
  convert name v UnitConverter_new = (Return (f v), UnitConverter_new).
Proof.
  intros Hin Hval Hlo Hhi.
  rewrite convert_unfold, Hval. unfold dispatch.
  rewrite (registry_lookup _ _ Hin), (clamp_in_range _ Hlo Hhi). reflexivity.
Qed.

(** ** Construction and the formulas *)

(** C1. The constructor fills the registry with exactly the 16 entries of
    the specification's table, four from each category's registration
    function, each bound to its formula; for every registered name and
    every input that passes the range checks and lies in [-1e6, 1e6],
    [convert] returns the table's formula applied to that input; and the
    three sample equalities of the specification hold:
    [convert("CelsiusToKelvin", 0.0) == 273.15],
    [convert("CelsiusToFahrenheit", 0.0) == 32.0],
    [convert("KilometersToMiles", 1.0) == 0.621371]. *)
Theorem registry_construction_contract :
  conversionFunctions UnitConverter_new = list_to_map spec_table /\
  size (conversionFunctions UnitConverter_new) = 16 /\
  (conversionFunctions (after (registerTemperatureConversions (MkUnitConverter ∅)))
     = list_to_map (take 4 spec_table) /\
   conversionFunctions (after (registerDistanceConversions (MkUnitConverter ∅)))
     = list_to_map (take 4 (drop 4 spec_table)) /\
   conversionFunctions (after (registerWeightConversions (MkUnitConverter ∅)))
     = list_to_map (take 4 (drop 8 spec_table)) /\
   conversionFunctions (after (registerVolumeConversions (MkUnitConverter ∅)))
     = list_to_map (take 4 (drop 12 spec_table))) /\
  (forall (name : string) (f : double -> double) (x : double),
      (name, f) ∈ spec_table ->
      validation name x = None ->
      (-1e6 <=? x)%float = true -> (x <=? 1e6)%float = true ->
      convert name x UnitConverter_new = (Return (f x), UnitConverter_new)) /\
  returns_equal (result (convert "CelsiusToKelvin" 0 UnitConverter_new)) 273.15 = true /\
  returns_equal (result (convert "CelsiusToFahrenheit" 0 UnitConverter_new)) 32 = true /\
  returns_equal (result (convert "KilometersToMiles" 1 UnitConverter_new)) 0.621371 = true.
Proof.
  split; [exact registry_is_spec_table|].
  split; [vm_compute; reflexivity|].
  split.
  { repeat split;
      match goal with
      | |- _ = ?m => vm_cast_no_check (@eq_refl (gmap string (double -> double)) m)
      end. }
  split; [exact convert_in_range|].
  repeat split; rewrite convert_result; vm_compute; reflexivity.
Qed.

Lemma registry_construction_contract_witness :
  convert "CelsiusToKelvin" 25 UnitConverter_new
  = (Return (25 + 273.15)%float, UnitConverter_new).
Proof.
  refine (proj1 (proj2 (proj2 (proj2 registry_construction_contract)))
            "CelsiusToKelvin" (fun c => c + 273.15)%float 25%float _ _ _ _).
  - do 2 apply list_elem_of_further. apply list_elem_of_here.
  - vm_compute. reflexivity.
  - vm_compute. reflexivity.
  - vm_compute. reflexivity.
Defined.

(** ** The temperature check *)

Lemma validation_BelowAbsoluteZero (name : string) (value : double) :
  validation name value = Some BelowAbsoluteZero <->
  is_temperature name && (normalized name value <? -273.15)%float = true.
Proof.
  unfold validation.
  destruct (is_temperature name && (normalized name value <? -273.15)%float);
    [tauto|].
  split; [|discriminate].
  destruct (is_distance name && (value <? 0)%float); [discriminate|].
  destruct (is_weight name && (value <? 0)%float); [discriminate|].
  destruct (is_volume name && (value <? 0)%float); discriminate.
Qed.

(** C2. For every name that contains "Celsius", "Fahrenheit" or "Kelvin"
    and every value, [convert] throws the below-absolute-zero error, with
    its exact message, exactly when the normalized Celsius value
    ((value-32)*5/9 for a name with "Fahrenheit", else value-273.15 for a
    name with "Kelvin", else the value itself) is less than -273.15. The
    check comes first: when it fails, no distance, weight or volume error
    and no lookup failure is reported, whatever else the name contains and
    whatever the registry holds. *)
Theorem temperature_check_first
    (name : string) (value : double) (self : UnitConverter)
    (Htemp : found name "Celsius" || found name "Fahrenheit"
             || found name "Kelvin" = true) :
  (result (convert name value self) = Throw BelowAbsoluteZero
   <-> (normalized name value <? -273.15)%float = true) /\
  what BelowAbsoluteZero = "Temperature value below absolute zero is not valid." /\
  ((normalized name value <? -273.15)%float = true ->
   convert name value self = (Throw BelowAbsoluteZero, self)).
Proof.
  fold (is_temperature name) in Htemp.
  assert (Hdown : (normalized name value <? -273.15)%float = true ->
                  convert name value self = (Throw BelowAbsoluteZero, self)).
  { intros Hlt. rewrite convert_unfold.
    replace (validation name value) with (Some BelowAbsoluteZero); [reflexivity|].
    symmetry. apply validation_BelowAbsoluteZero. rewrite Htemp, Hlt. reflexivity. }
  split; [split|split; [reflexivity|exact Hdown]].
  - rewrite convert_result. intros Hthrow.
    destruct (validation name value) as [e|] eqn:Hv.
    + injection Hthrow as ->.
      apply validation_BelowAbsoluteZero in Hv. rewrite Htemp in Hv. exact Hv.
    + unfold dispatch in Hthrow.
      destruct (conversionFunctions self !! name); discriminate.
  - intros Hlt. rewrite (Hdown Hlt). reflexivity.
Qed.

Lemma temperature_check_first_witness :
  is_distance "KelvinToMiles" = true /\
  convert "KelvinToMiles" (-5) UnitConverter_new
  = (Throw BelowAbsoluteZero, UnitConverter_new).
Proof.
  split; [reflexivity|].
  apply (temperature_check_first "KelvinToMiles" (-5)%float UnitConverter_new).
  - vm_compute. reflexivity.
  - vm_compute. reflexivity.
Defined.

(** C3. At the boundary. [convert("CelsiusToKelvin", -300.0)] throws the
    below-absolute-zero error with its exact message and so does
    [convert("CelsiusToKelvin", -273.16)]; but
    [convert("CelsiusToKelvin", -273.15)], which the specification expects
    to succeed, throws it too: the name contains "Kelvin", so the check
    subtracts 273.15 from the Celsius input as if it were in kelvins and
    compares -546.3 with -273.15. Even -1 degree Celsius is refused. *)
Theorem CelsiusToKelvin_boundary :
  convert "CelsiusToKelvin" (-300) UnitConverter_new
    = (Throw (invalid_argument
                "Temperature value below absolute zero is not valid."),
       UnitConverter_new) /\
  convert "CelsiusToKelvin" (-273.16) UnitConverter_new
    = (Throw BelowAbsoluteZero, UnitConverter_new) /\
  convert "CelsiusToKelvin" (-273.15) UnitConverter_new
    = (Throw BelowAbsoluteZero, UnitConverter_new) /\
  normalized "CelsiusToKelvin" (-273.15) = (-273.15 - 273.15)%float /\
  convert "CelsiusToKelvin" (-1) UnitConverter_new
    = (Throw BelowAbsoluteZero, UnitConverter_new).
Proof. repeat split; try eval_convert. Qed.

(** ** The non-negativity checks *)

(** What a negative input gets for the twelve registered distance, weight
    and volume names: the error of the name's own category, except for the
    two names with "FluidOunces", which contain "Ounces" and are stopped
    by the weight check. *)
Lemma negative_magnitude_errors (v : double) :
  (v <? 0)%float = true ->
  Forall (fun name => convert name v UnitConverter_new
                      = (Throw NegativeDistance, UnitConverter_new))
    ["KilometersToMiles"; "MilesToKilometers"; "MetersToFeet"; "FeetToMeters"] /\
  Forall (fun name => convert name v UnitConverter_new
                      = (Throw NegativeWeight, UnitConverter_new))
    ["KilogramsToPounds"; "PoundsToKilograms"; "GramsToOunces"; "OuncesToGrams";
     "MillilitersToFluidOunces"; "FluidOuncesToMilliliters"] /\
  Forall (fun name => convert name v UnitConverter_new
                      = (Throw NegativeVolume, UnitConverter_new))
    ["LitersToGallons"; "GallonsToLiters"].
Proof.
  intros Hneg.
  repeat split; repeat apply List.Forall_cons; try apply List.Forall_nil;
    rewrite convert_unfold; unfold validation;
    match goal with
    | |- context [is_temperature ?n] =>
        change (is_temperature n) with false;
        first [ change (is_distance n) with true
              | change (is_distance n) with false;
                first [ change (is_weight n) with true
                      | change (is_weight n) with false;
                        change (is_volume n) with true ] ]
    end; rewrite Hneg; reflexivity.
Qed.

(** C4. A negative input to a volume name with "FluidOunces" does not get
    the volume error: "FluidOunces" contains "Ounces", the weight check
    comes first, and [convert] throws "Negative weight values are not
    valid." for "MillilitersToFluidOunces" and "FluidOuncesToMilliliters". *)
Theorem negative_FluidOunces_is_weight_error :
  convert "MillilitersToFluidOunces" (-1) UnitConverter_new
    = (Throw (invalid_argument "Negative weight values are not valid."),
       UnitConverter_new) /\
  convert "FluidOuncesToMilliliters" (-1) UnitConverter_new
    = (Throw (invalid_argument "Negative weight values are not valid."),
       UnitConverter_new) /\
  found "MillilitersToFluidOunces" "Ounces" = true /\
  found "FluidOuncesToMilliliters" "Ounces" = true /\
  result (convert "MillilitersToFluidOunces" (-1) UnitConverter_new)
    <> Throw NegativeVolume /\
  result (convert "FluidOuncesToMilliliters" (-1) UnitConverter_new)
    <> Throw NegativeVolume.
Proof.
  repeat split; try eval_convert; try (vm_compute; reflexivity);
    rewrite convert_result; vm_compute; discriminate.
Qed.

(** ** Clamping *)

Lemma clamp_1e7 : clamp 1e7 = clamp 1e6.
Proof. reflexivity. Qed.

Lemma clamp_minus_1e7 : clamp (-1e7) = clamp (-1e6).
Proof. reflexivity. Qed.

(** No registered name accepts -1e7 or -1e6: the clause on the negative
    bounds is only ever met by names outside the registry. *)
Lemma registered_negative_bounds_rejected :
  Forall (fun name => validation name (-1e7) <> None
                      /\ validation name (-1e6) <> None) registered_names.
Proof.
  unfold registered_names, spec_table. cbn [map fst].
  repeat apply List.Forall_cons; try apply List.Forall_nil;
    split; vm_compute; discriminate.
Qed.

(** C5. The range checks look at the value as passed; the clamp to
    +-1,000,000 is applied only when they all pass, and the formula gets
    the clamped value. Hence for every registered name for which 1e7 and
    1e6 both pass the checks, [convert(name, 1e7) == convert(name, 1e6)],
    and for every name for which -1e7 and -1e6 both pass the checks,
    [convert(name, -1e7)] and [convert(name, -1e6)] end the same way. *)
Theorem clamp_after_validation (name : string) :
  (forall (self : UnitConverter) (v : double) (e : exception),
      validation name v = Some e -> convert name v self = (Throw e, self)) /\
  (forall (self : UnitConverter) (v : double),
      validation name v = None ->
      convert name v self = (dispatch self name (clamp v), self)) /\
  (name ∈ registered_names ->
   validation name 1e7 = None -> validation name 1e6 = None ->
   convert name 1e7 UnitConverter_new = convert name 1e6 UnitConverter_new /\
   exists r : double,
     result (convert name 1e6 UnitConverter_new) = Return r /\
     returns_equal (result (convert name 1e7 UnitConverter_new)) r = true) /\
  (forall self : UnitConverter,
      validation name (-1e7) = None -> validation name (-1e6) = None ->
      convert name (-1e7) self = convert name (-1e6) self).
Proof.
  split; [|split; [|split]].
  - intros self v e Hv. rewrite convert_unfold, Hv. reflexivity.
  - intros self v Hv. rewrite convert_unfold, Hv. reflexivity.
  - intros Hreg H7 H6.
    split; [rewrite !convert_unfold, H7, H6, clamp_1e7; reflexivity|].
    unfold registered_names, spec_table in Hreg. simpl in Hreg.
    repeat (apply elem_of_cons in Hreg as [->|Hreg];
            [eexists; split; rewrite convert_result; vm_compute; reflexivity|]).
    apply elem_of_nil in Hreg. contradiction.
  - intros self H7 H6.
    rewrite !convert_unfold, H7, H6, clamp_minus_1e7. reflexivity.
Qed.

Lemma clamp_after_validation_witness :
  convert "LitersToGallons" (-1) UnitConverter_new
    = (Throw NegativeVolume, UnitConverter_new) /\
  convert "LitersToGallons" 5e6 UnitConverter_new
    = (Return (1e6 * 0.264172)%float, UnitConverter_new) /\
  convert "LitersToGallons" 1e7 UnitConverter_new
    = convert "LitersToGallons" 1e6 UnitConverter_new /\
  convert "Scale" (-1e7) UnitConverter_new = convert "Scale" (-1e6) UnitConverter_new.
Proof.
  pose proof (clamp_after_validation "LitersToGallons") as (Hthrow & Hpass & Hpos & _).
  pose proof (clamp_after_validation "Scale") as (_ & _ & _ & Hneg).
  split; [|split; [|split]].
  - apply Hthrow. vm_compute. reflexivity.
  - rewrite Hpass; [|vm_compute; reflexivity].
    apply (f_equal (fun r => (r, UnitConverter_new))). vm_compute. reflexivity.
  - apply Hpos; [|vm_compute; reflexivity|vm_compute; reflexivity].
    unfold registered_names, spec_table. simpl.
    do 12 apply list_elem_of_further. apply list_elem_of_here.
  - apply Hneg; vm_compute; reflexivity.
Defined.

(** ** Unknown names *)

(** C6. For every name that the registry does not hold and every value
    that passes the substring-based range checks, [convert] throws the
    unknown-conversion error whose message is "Invalid conversion type: "
    followed by the name. In particular [convert("InvalidType", 100.0)]
    throws "Invalid conversion type: InvalidType", and
    [convert("MetersToYards", v)] with [v >= 0], though "MetersToYards"
    is checked as a distance, throws the unknown-conversion error. *)
Theorem unknown_conversion :
  (forall (name : string) (value : double),
      conversionFunctions UnitConverter_new !! name = None ->
      validation name value = None ->
      convert name value UnitConverter_new
      = (Throw (invalid_argument ("Invalid conversion type: " +:+ name)),
         UnitConverter_new)) /\
  convert "InvalidType" 100 UnitConverter_new
    = (Throw (invalid_argument "Invalid conversion type: InvalidType"),
       UnitConverter_new) /\
  is_distance "MetersToYards" = true /\
  (forall v : double,
      (0 <=? v)%float = true ->
      convert "MetersToYards" v UnitConverter_new
      = (Throw (invalid_argument "Invalid conversion type: MetersToYards"),
         UnitConverter_new)).
Proof.
  assert (Hgen : forall (name : string) (value : double),
             conversionFunctions UnitConverter_new !! name = None ->
             validation name value = None ->
             convert name value UnitConverter_new
             = (Throw (UnknownConversion name), UnitConverter_new)).
  { intros name value Hnone Hval.
    rewrite convert_unfold, Hval. unfold dispatch. rewrite Hnone. reflexivity. }
  split; [exact Hgen|].
  split; [eval_convert|].
  split; [vm_compute; reflexivity|].
  intros v Hv.
  change (invalid_argument "Invalid conversion type: MetersToYards")
    with (UnknownConversion "MetersToYards").
  apply Hgen; [vm_compute; reflexivity|].
  unfold validation.
  change (is_temperature "MetersToYards") with false.
  change (is_distance "MetersToYards") with true.
  change (is_weight "MetersToYards") with false.
  change (is_volume "MetersToYards") with false.
  rewrite (leb_not_gt _ _ Hv). reflexivity.
Qed.

Lemma unknown_conversion_witness :
  convert "KilogramsToStones" 10 UnitConverter_new
    = (Throw (invalid_argument "Invalid conversion type: KilogramsToStones"),
       UnitConverter_new) /\
  convert "MetersToYards" 10 UnitConverter_new
    = (Throw (invalid_argument "Invalid conversion type: MetersToYards"),
       UnitConverter_new).
Proof.
  split.
  - apply (proj1 unknown_conversion "KilogramsToStones" 10%float);
      vm_compute; reflexivity.
  - apply (proj2 (proj2 (proj2 unknown_conversion)) 10%float).
    vm_compute. reflexivity.
Defined.

(** ** Finite results *)

(** Each registered formula maps a zero or a finite double of magnitude at
    most 1e6 to a double that is neither NaN nor infinite. *)
Lemma formula_finite (name : string) (f : double -> double) (y : double) :
  (name, f) ∈ spec_table ->
  finite_upto (-33) y ->
  isnan (f y) = false /\ isinf (f y) = false.
Proof.
  intros Hin Hy. unfold spec_table in Hin.
  repeat (apply elem_of_cons in Hin as [[= -> ->]|Hin];
          [eapply finite_upto_is_finite; finite_formula|]).
  apply elem_of_nil in Hin. contradiction.
Qed.

(** Unless the input is NaN, a call that passes the range checks returns
    a finite double, for each of the 16 registered names. *)
Lemma convert_finite_unless_nan
    (name : string) (f : double -> double) (x : double) :
  (name, f) ∈ spec_table ->
  isnan x = false ->
  validation name x = None ->
  exists r : double,
    convert name x UnitConverter_new = (Return r, UnitConverter_new) /\
    isnan r = false /\ isinf r = false.
Proof.
  intros Hin Hnan Hval. exists (f (clamp x)). split.
  - rewrite convert_unfold, Hval. unfold dispatch.
    rewrite (registry_lookup _ _ Hin). reflexivity.
  - apply (formula_finite name); [exact Hin|].
    apply clamp_finite_upto. exact Hnan.
Qed.

(** ** NaN *)

Lemma validation_nan (name : string) : validation name nan = None.
Proof.
  unfold validation, normalized.
  assert (Hf : (((nan - 32) * 5 / 9) <? -273.15)%float = false) by reflexivity.
  assert (Hk : ((nan - 273.15) <? -273.15)%float = false) by reflexivity.
  assert (Hc : (nan <? -273.15)%float = false) by reflexivity.
  assert (H0 : (nan <? 0)%float = false) by reflexivity.
  rewrite H0.
  destruct (found name "Fahrenheit"), (found name "Kelvin");
    rewrite ?Hf, ?Hk, ?Hc, !andb_false_r; reflexivity.
Qed.

Lemma convert_nan_registered :
  Forall (fun name => convert name nan UnitConverter_new
                      = (Return nan, UnitConverter_new)) registered_names.
Proof.
  unfold registered_names, spec_table. cbn [map fst].
  repeat apply List.Forall_cons; try apply List.Forall_nil; eval_convert.
Qed.


(** C8. [convert] returns NaN for each of the 16 registered names when
    the input is NaN: NaN passes every range check and is not clamped.
    (For every other input that passes the checks the result is finite:
    [convert_finite_unless_nan].) *)
Theorem convert_returns_nan :
  Forall (fun name => validation name nan = None /\
                      convert name nan UnitConverter_new
                      = (Return nan, UnitConverter_new))
         registered_names /\
  isnan nan = true.
Proof.
  split; [|reflexivity].
  pose proof convert_nan_registered as H.
  eapply Forall_impl; [exact H|].
  intros name Hc. split; [apply validation_nan|exact Hc].
Qed.

(** ** The registry after construction *)

Lemma run_unfold (calls : list (string * double)) (self : UnitConverter) :
  run calls self
  = (map (fun c => result (convert (fst c) (snd c) self)) calls, self).
Proof.
  induction calls as [|[name value] rest IH]; simpl; [reflexivity|].
  rewrite convert_unfold, IH. reflexivity.
Qed.

(** C9. [convert] never changes the registry: after any call, returning
    or throwing, on any converter, the object is as before. So after any
    sequence of calls on a freshly constructed converter the registry is
    still the 16-entry map the constructor built, and each call of the
    sequence saw that map. *)
Theorem registry_immutable :
  (forall (name : string) (value : double) (self : UnitConverter),
      after (convert name value self) = self) /\
  (forall calls : list (string * double),
      snd (run calls UnitConverter_new) = UnitConverter_new /\
      conversionFunctions (snd (run calls UnitConverter_new))
        = list_to_map spec_table /\
      size (conversionFunctions (snd (run calls UnitConverter_new))) = 16 /\
      fst (run calls UnitConverter_new)
        = map (fun c => result (convert (fst c) (snd c) UnitConverter_new)) calls).
Proof.
  split; [exact convert_after|].
  intros calls. rewrite run_unfold. cbn [fst snd].
  split; [reflexivity|].
  split; [exact registry_is_spec_table|].
  split; [vm_compute; reflexivity | reflexivity].
Qed.

(** ** In-range inputs *)

(** C10. For every registered name and every value between -1e6 and 1e6
    that passes the name's range checks, [convert] throws nothing and
    returns the registered formula applied to the value itself, the clamp
    being the identity there. And [convert] is deterministic: a second
    call with the same name and value, on the object the first call left,
    ends as the first did. *)
Theorem convert_exact_in_range :
  (forall (name : string) (f : double -> double) (v : double),
      (name, f) ∈ spec_table ->
      (-1e6 <=? v)%float = true -> (v <=? 1e6)%float = true ->
      validation name v = None ->
      clamp v = v /\
      conversionFunctions UnitConverter_new !! name = Some f /\
      convert name v UnitConverter_new = (Return (f v), UnitConverter_new)) /\
  (forall (name : string) (v : double) (self : UnitConverter),
      convert name v (after (convert name v self)) = convert name v self).
Proof.
  split.
  - intros name f v Hin Hlo Hhi Hval.
    split; [exact (clamp_in_range _ Hlo Hhi)|].
    split; [exact (registry_lookup _ _ Hin)|].
    exact (convert_in_range _ _ _ Hin Hval Hlo Hhi).
  - intros name v self. rewrite convert_after. reflexivity.
Qed.

Lemma convert_exact_in_range_witness :
  convert "FahrenheitToCelsius" 212 UnitConverter_new
  = (Return ((212 - 32) * 5 / 9)%float, UnitConverter_new).
Proof.
  refine (proj2 (proj2 (proj1 convert_exact_in_range
            "FahrenheitToCelsius" (fun f => (f - 32) * 5 / 9)%float 212%float
            _ _ _ _))).
  - apply list_elem_of_further, list_elem_of_here.
  - vm_compute. reflexivity.
  - vm_compute. reflexivity.
  - vm_compute. reflexivity.
Defined.

(** * Further properties of the converter *)

(** ** What [convert] can throw *)

(** The exceptions of [convert], each with the test that raised it. *)
Lemma convert_exceptions
    (name : string) (value : double) (self : UnitConverter) (e : exception) :
  result (convert name value self) = Throw e ->
  (e = BelowAbsoluteZero /\ is_temperature name = true
   /\ (normalized name value <? -273.15)%float = true) \/
  (e = NegativeDistance /\ is_distance name = true
   /\ (value <? 0)%float = true) \/
  (e = NegativeWeight /\ is_weight name = true
   /\ (value <? 0)%float = true) \/
  (e = NegativeVolume /\ is_volume name = true
   /\ (value <? 0)%float = true) \/
  (e = invalid_argument ("Invalid conversion type: " +:+ name)
   /\ conversionFunctions self !! name = None
   /\ validation name value = None).
Proof.
  rewrite convert_result. unfold validation.
  destruct (is_temperature name && (normalized name value <? -273.15)%float)
    eqn:Ht.
  { intros [= <-]. apply andb_prop in Ht. tauto. }
  destruct (is_distance name && (value <? 0)%float) eqn:Hd.
  { intros [= <-]. apply andb_prop in Hd. tauto. }
  destruct (is_weight name && (value <? 0)%float) eqn:Hw.
  { intros [= <-]. apply andb_prop in Hw. tauto. }
  destruct (is_volume name && (value <? 0)%float) eqn:Hv.
  { intros [= <-]. apply andb_prop in Hv. tauto. }
  unfold dispatch.
  destruct (conversionFunctions self !! name) eqn:Hl; [discriminate|].
  intros [= <-]. do 4 right. auto.
Qed.

(** Every exception that leaves [convert], on any converter, is one of
    five: a range error of a category whose substring the name contains,
    with the value out of that category's range, or the unknown-name
    error for a name the registry does not hold and a value that passed
    every range check. *)
Theorem convert_throws_only
    (name : string) (value : double) (self : UnitConverter) (e : exception) :
  result (convert name value self) = Throw e ->
  (e = BelowAbsoluteZero /\ is_temperature name = true
   /\ (normalized name value <? -273.15)%float = true) \/
  (e = NegativeDistance /\ is_distance name = true
   /\ (value <? 0)%float = true) \/
  (e = NegativeWeight /\ is_weight name = true
   /\ (value <? 0)%float = true) \/
  (e = NegativeVolume /\ is_volume name = true
   /\ (value <? 0)%float = true) \/
  (e = invalid_argument ("Invalid conversion type: " +:+ name)
   /\ conversionFunctions self !! name = None
   /\ validation name value = None).
Proof.
  exact (convert_exceptions name value self e).
Qed.

Lemma convert_throws_only_witness :
  is_weight "MillilitersToFluidOunces" = true /\ (-2 <? 0)%float = true.
Proof.
  destruct (convert_throws_only "MillilitersToFluidOunces" (-2)%float
              UnitConverter_new NegativeWeight)
    as [(H & _)|[(H & _)|[(_ & Hw & Hv)|[(H & _)|(H & _)]]]];
    try discriminate H.
  - rewrite convert_result. vm_compute. reflexivity.
  - split; assumption.
Defined.

(** ** The twelve distance, weight and volume names *)

(** For each of the twelve names, [convert] throws exactly when the value
    is less than zero, with the error of the first category whose
    substring the name contains, and otherwise (NaN included) returns the
    formula applied to the clamped value. *)
Theorem magnitude_names_outcome
    (name : string) (f : double -> double) (v : double) :
  (name, f) ∈ drop 4 spec_table ->
  convert name v UnitConverter_new
  = (if (v <? 0)%float
     then Throw (if is_distance name then NegativeDistance
                 else if is_weight name then NegativeWeight
                      else NegativeVolume)
     else Return (f (clamp v)),
     UnitConverter_new).
Proof.
  intros Hin. rewrite convert_unfold. f_equal.
  unfold spec_table in Hin. cbn [drop] in Hin.
  repeat (apply elem_of_cons in Hin as [[= -> ->]|Hin];
          [unfold validation;
           match goal with
           | |- context [is_temperature ?n] =>
               change (is_temperature n) with false;
               let d := eval vm_compute in (is_distance n) in
               change (is_distance n) with d;
               let w := eval vm_compute in (is_weight n) in
               change (is_weight n) with w;
               let o := eval vm_compute in (is_volume n) in
               change (is_volume n) with o
           end;
           destruct (v <? 0)%float; cbn [andb];
           [reflexivity | vm_compute; reflexivity]|]).
  apply elem_of_nil in Hin. contradiction.
Qed.

Lemma magnitude_names_outcome_witness :
  convert "FluidOuncesToMilliliters" (-3) UnitConverter_new
  = (Throw NegativeWeight, UnitConverter_new).
Proof.
  refine (magnitude_names_outcome "FluidOuncesToMilliliters"
            (fun floz => floz / 0.033814)%float (-3)%float _).
  cbn [drop spec_table]. do 11 apply list_elem_of_further.
  apply list_elem_of_here.
Defined.

(** ** The temperature check and the direction of a conversion *)

Lemma validation_Fahrenheit_names (v : double) :
  validation "CelsiusToFahrenheit" v
    = (if ((v - 32) * 5 / 9 <? -273.15)%float
       then Some BelowAbsoluteZero else None) /\
  validation "FahrenheitToCelsius" v
    = (if ((v - 32) * 5 / 9 <? -273.15)%float
       then Some BelowAbsoluteZero else None).
Proof. split; vm_compute; reflexivity. Qed.

Lemma validation_Kelvin_names (v : double) :
  validation "CelsiusToKelvin" v
    = (if (v - 273.15 <? -273.15)%float
       then Some BelowAbsoluteZero else None) /\
  validation "KelvinToCelsius" v
    = (if (v - 273.15 <? -273.15)%float
       then Some BelowAbsoluteZero else None).
Proof. split; vm_compute; reflexivity. Qed.

Lemma temperature_outcome (name : string) (f : double -> double) (v : double)
    (below : bool) :
  conversionFunctions UnitConverter_new !! name = Some f ->
  validation name v = (if below then Some BelowAbsoluteZero else None) ->
  (result (convert name v UnitConverter_new) = Throw BelowAbsoluteZero
   <-> below = true) /\
  (below = false ->
   convert name v UnitConverter_new = (Return (f (clamp v)), UnitConverter_new)).
Proof.
  intros Hf Hv. rewrite convert_unfold, Hv. unfold dispatch. rewrite Hf.
  destruct below; cbn [result fst]; split; try tauto; try discriminate.
  split; discriminate.
Qed.

(** The range check of a temperature name looks at the substrings of the
    name, not at the unit the value is in: both directions of a pair are
    checked alike. A value headed from Celsius to Fahrenheit is checked
    as if it were in degrees Fahrenheit, a value headed from Celsius to
    kelvins as if it were in kelvins. *)
Theorem temperature_check_ignores_direction (v : double) :
  (result (convert "CelsiusToFahrenheit" v UnitConverter_new)
     = Throw BelowAbsoluteZero
   <-> ((v - 32) * 5 / 9 <? -273.15)%float = true) /\
  (result (convert "FahrenheitToCelsius" v UnitConverter_new)
     = Throw BelowAbsoluteZero
   <-> ((v - 32) * 5 / 9 <? -273.15)%float = true) /\
  (result (convert "CelsiusToKelvin" v UnitConverter_new)
     = Throw BelowAbsoluteZero
   <-> (v - 273.15 <? -273.15)%float = true) /\
  (result (convert "KelvinToCelsius" v UnitConverter_new)
     = Throw BelowAbsoluteZero
   <-> (v - 273.15 <? -273.15)%float = true) /\
  (((v - 32) * 5 / 9 <? -273.15)%float = false ->
   convert "CelsiusToFahrenheit" v UnitConverter_new
     = (Return (clamp v * 9 / 5 + 32)%float, UnitConverter_new) /\
   convert "FahrenheitToCelsius" v UnitConverter_new
     = (Return ((clamp v - 32) * 5 / 9)%float, UnitConverter_new)) /\
  ((v - 273.15 <? -273.15)%float = false ->
   convert "CelsiusToKelvin" v UnitConverter_new
     = (Return (clamp v + 273.15)%float, UnitConverter_new) /\
   convert "KelvinToCelsius" v UnitConverter_new
     = (Return (clamp v - 273.15)%float, UnitConverter_new)).
Proof.
  destruct (validation_Fahrenheit_names v) as [Hcf Hfc].
  destruct (validation_Kelvin_names v) as [Hck Hkc].
  pose proof (temperature_outcome "CelsiusToFahrenheit"
                (fun c => c * 9 / 5 + 32)%float v _ eq_refl Hcf) as [Hcf1 Hcf2].
  pose proof (temperature_outcome "FahrenheitToCelsius"
                (fun f => (f - 32) * 5 / 9)%float v _ eq_refl Hfc) as [Hfc1 Hfc2].
  pose proof (temperature_outcome "CelsiusToKelvin"
                (fun c => c + 273.15)%float v _ eq_refl Hck) as [Hck1 Hck2].
  pose proof (temperature_outcome "KelvinToCelsius"
                (fun k => k - 273.15)%float v _ eq_refl Hkc) as [Hkc1 Hkc2].
  repeat split; try tauto; intros H; auto.
Qed.

Lemma temperature_check_ignores_direction_witness :
  convert "CelsiusToFahrenheit" (-300) UnitConverter_new
    = (Return (-300 * 9 / 5 + 32)%float, UnitConverter_new) /\
  convert "KelvinToCelsius" 0 UnitConverter_new
    = (Return (0 - 273.15)%float, UnitConverter_new).
Proof.
  split.
  - apply (proj1 (proj2 (proj2 (proj2 (proj2
             (temperature_check_ignores_direction (-300)%float)))))).
    vm_compute. reflexivity.
  - apply (proj2 (proj2 (proj2 (proj2 (proj2
             (temperature_check_ignores_direction 0%float)))))).
    vm_compute. reflexivity.
Defined.

(** ** The argument of the formula *)

Lemma SFcompare_None (x y : spec_float) :
  SFcompare x y = None -> x = S754_nan \/ y = S754_nan.
Proof.
  destruct x as [sx|sx| |sx mx ex], y as [sy|sy| |sy my ey]; simpl;
    try discriminate; auto.
Qed.

(** Among doubles that are not NaN the order is total. *)
Lemma not_ltb_leb (a b : double) :
  is_nan a = false -> is_nan b = false ->
  (a <? b)%float = false -> (b <=? a)%float = true.
Proof.
  intros Ha Hb. rewrite ltb_spec, leb_spec. unfold SFltb, SFleb.
  destruct (SFcompare (Prim2SF a) (Prim2SF b)) as [c|] eqn:E.
  - rewrite (SFcompare_antisym _ _ _ E). destruct c; simpl; congruence.
  - apply SFcompare_None in E as [E|E]; apply is_nan_Prim2SF in E; congruence.
Qed.

Lemma nan_not_ltb (a b : double) :
  is_nan a = true \/ is_nan b = true -> (a <? b)%float = false.
Proof.
  rewrite ltb_spec. unfold SFltb.
  intros [H|H]; apply is_nan_Prim2SF in H; rewrite H;
    [reflexivity | destruct (Prim2SF a); reflexivity].
Qed.

Lemma clamp_bounds (v : double) :
  is_nan v = false ->
  (-1e6 <=? clamp v)%float = true /\ (clamp v <=? 1e6)%float = true.
Proof.
  intros Hv. unfold clamp.
  destruct (1e6 <? v)%float eqn:Hhi; [split; reflexivity|].
  destruct (v <? -1e6)%float eqn:Hlo; [split; reflexivity|].
  split; apply not_ltb_leb; auto.
Qed.

(** Whatever the registry binds a name to, the bound function is only
    ever applied to NaN (when the input is NaN) or to a double between
    -1e6 and 1e6; and to the input itself when that lies between the
    bounds. *)
Theorem formula_argument_clamped
    (self : UnitConverter) (name : string) (f : double -> double) (v : double) :
  conversionFunctions self !! name = Some f ->
  validation name v = None ->
  exists y : double,
    convert name v self = (Return (f y), self) /\
    (isnan v = true -> y = v) /\
    (isnan v = false ->
     (-1e6 <=? y)%float = true /\ (y <=? 1e6)%float = true) /\
    ((-1e6 <=? v)%float = true -> (v <=? 1e6)%float = true -> y = v).
Proof.
  intros Hf Hv. exists (clamp v). split; [|split; [|split]].
  - rewrite convert_unfold, Hv. unfold dispatch. rewrite Hf. reflexivity.
  - unfold isnan. intros Hn. unfold clamp.
    rewrite !nan_not_ltb by auto. reflexivity.
  - apply clamp_bounds.
  - apply clamp_in_range.
Qed.

Lemma formula_argument_clamped_witness :
  exists y : double,
    convert "MetersToFeet" 3e9 UnitConverter_new
      = (Return (y * 3.28084)%float, UnitConverter_new) /\
    (-1e6 <=? y)%float = true /\ (y <=? 1e6)%float = true.
Proof.
  destruct (formula_argument_clamped UnitConverter_new "MetersToFeet"
              (fun m => m * 3.28084)%float 3e9%float)
    as (y & Hc & _ & Hb & _).
  - vm_compute. reflexivity.
  - vm_compute. reflexivity.
  - exists y. split; [exact Hc|]. apply Hb. reflexivity.
Defined.

(** ** Finite results *)

(** [convert_finite_unless_nan] at an infinite input: the clamp brings
    it back to 1e6. *)
Lemma convert_finite_unless_nan_witness :
  exists r : double,
    convert "OuncesToGrams" infinity UnitConverter_new
      = (Return r, UnitConverter_new) /\
    isnan r = false /\ isinf r = false.
Proof.
  apply (convert_finite_unless_nan "OuncesToGrams"
           (fun oz => oz / 0.035274)%float infinity).
  - do 11 apply list_elem_of_further. apply list_elem_of_here.
  - reflexivity.
  - vm_compute. reflexivity.
Defined.

(** ** Registration on a map that already has entries *)

Ltac run_registration :=
  unfold UnitConverter_new, registerConversionFunctions,
    registerTemperatureConversions, registerDistanceConversions,
    registerWeightConversions, registerVolumeConversions;
  cbv [mbind method_bind mret method_ret assign after snd conversionFunctions].

(** Registering writes the 16 entries over whatever the map holds. *)
Lemma registration_over (m : gmap string (double -> double)) :
  conversionFunctions (after (registerConversionFunctions (MkUnitConverter m)))
  = conversionFunctions UnitConverter_new ∪ m.
Proof.
  run_registration.
  rewrite <- (left_id_L ∅ (∪) m) at 1.
  rewrite <- !insert_union_l. reflexivity.
Qed.

(** [registerConversionFunctions] on any converter: each of the 16 names
    ends up bound to its formula, whatever it was bound to before; every
    other entry stays as it was; and running the registration a second
    time changes nothing. *)
Theorem registration_overwrites_and_preserves (self : UnitConverter) :
  let registered := after (registerConversionFunctions self) in
  (forall (name : string) (f : double -> double),
      (name, f) ∈ spec_table ->
      conversionFunctions registered !! name = Some f) /\
  (forall name : string,
      name ∉ registered_names ->
      conversionFunctions registered !! name
      = conversionFunctions self !! name) /\
  after (registerConversionFunctions registered) = registered.
Proof.
  destruct self as [m]. cbn zeta.
  assert (Hreg : forall m' : gmap string (double -> double),
             after (registerConversionFunctions (MkUnitConverter m'))
             = MkUnitConverter (conversionFunctions UnitConverter_new ∪ m')).
  { intros m'. rewrite <- registration_over. reflexivity. }
  rewrite Hreg. cbn [conversionFunctions].
  split; [|split].
  - intros name f Hin. apply lookup_union_Some_l.
    apply registry_lookup. exact Hin.
  - intros name Hnot. apply lookup_union_r.
    apply registry_lookup_None. exact Hnot.
  - rewrite Hreg. f_equal.
    rewrite (assoc (∪)), (idemp (∪) (conversionFunctions UnitConverter_new)).
    reflexivity.
Qed.

Lemma registration_overwrites_and_preserves_witness :
  conversionFunctions
    (after (registerConversionFunctions
              (MkUnitConverter (<["CelsiusToKelvin" := fun c => c]>
                                  (<["Identity" := fun x => x]> ∅)))))
    !! "CelsiusToKelvin" = Some (fun c => c + 273.15)%float /\
  conversionFunctions
    (after (registerConversionFunctions
              (MkUnitConverter (<["CelsiusToKelvin" := fun c => c]>
                                  (<["Identity" := fun x => x]> ∅)))))
    !! "Identity" = Some (fun x => x).
Proof.
  pose proof (registration_overwrites_and_preserves
                (MkUnitConverter (<["CelsiusToKelvin" := fun c => c]>
                                    (<["Identity" := fun x => x]> ∅))))
    as (Hbind & Hkeep & _).
  split.
  - apply Hbind. do 2 apply list_elem_of_further. apply list_elem_of_here.
  - rewrite Hkeep; [reflexivity|].
    apply (bool_decide_unpack _). vm_compute. exact I.
Defined.

(** ** The order of the category registrations *)

Lemma category_registration_over (r : method unit)
    (m : gmap string (double -> double)) :
  r ∈ category_registrations ->
  after (r (MkUnitConverter m))
  = MkUnitConverter (conversionFunctions (after (r (MkUnitConverter ∅))) ∪ m).
Proof.
  intros Hin. unfold category_registrations in Hin.
  repeat (apply elem_of_cons in Hin as [->|Hin];
          [run_registration; f_equal;
           rewrite <- (left_id_L ∅ (∪) m) at 1;
           rewrite <- !insert_union_l; reflexivity|]).
  apply elem_of_nil in Hin. contradiction.
Qed.

Lemma category_registrations_disjoint (r1 r2 : method unit) :
  r1 ∈ category_registrations -> r2 ∈ category_registrations ->
  r1 = r2 \/
  conversionFunctions (after (r1 (MkUnitConverter ∅)))
  ##ₘ conversionFunctions (after (r2 (MkUnitConverter ∅))).
Proof.
  intros H1 H2. unfold category_registrations in H1, H2.
  repeat (apply elem_of_cons in H1 as [->|H1];
          [repeat (apply elem_of_cons in H2 as [->|H2];
                   [first [ left; reflexivity
                          | right; apply map_disjoint_dom;
                            apply (bool_decide_unpack _); vm_compute; exact I ]|]);
           apply elem_of_nil in H2; contradiction|]).
  apply elem_of_nil in H1. contradiction.
Qed.

(** The four category registrations write disjoint sets of names, so on
    any converter two of them can run in either order with the same
    result: the registry does not depend on the order in which
    [registerConversionFunctions] calls them. *)
Theorem category_registrations_commute
    (r1 r2 : method unit) (self : UnitConverter) :
  r1 ∈ category_registrations -> r2 ∈ category_registrations ->
  after (r2 (after (r1 self))) = after (r1 (after (r2 self))).
Proof.
  intros H1 H2. destruct self as [m].
  pose proof (fun m' => category_registration_over r1 m' H1) as E1.
  pose proof (fun m' => category_registration_over r2 m' H2) as E2.
  destruct (category_registrations_disjoint r1 r2 H1 H2) as [->|Hdisj];
    [reflexivity|].
  revert E1 E2 Hdisj.
  generalize (conversionFunctions (after (r1 (MkUnitConverter ∅)))).
  generalize (conversionFunctions (after (r2 (MkUnitConverter ∅)))).
  intros X2 X1 E1 E2 Hdisj.
  rewrite (E1 m), (E2 m), E1, E2. f_equal.
  rewrite !(assoc (∪)). f_equal.
  symmetry. apply map_union_comm. exact Hdisj.
Qed.

Lemma category_registrations_commute_witness :
  after (registerVolumeConversions
           (after (registerTemperatureConversions (MkUnitConverter ∅))))
  = after (registerTemperatureConversions
             (after (registerVolumeConversions (MkUnitConverter ∅)))).
Proof.
  apply (category_registrations_commute
           registerTemperatureConversions registerVolumeConversions).
  - apply list_elem_of_here.
  - do 3 apply list_elem_of_further. apply list_elem_of_here.
Defined.

(** ** Inputs above the upper bound *)

Section Signs.
Local Open Scope Z_scope.

(** Rounding keeps the sign it is given and never produces NaN from a
    nonnegative mantissa. *)
Lemma binary_round_aux_sign (sx : bool) (mx ex : Z) (lx : location) :
  0 <= mx ->
  match binary_round_aux prec emax sx mx ex lx with
  | S754_zero s | S754_infinity s | S754_finite s _ _ => s = sx
  | S754_nan => False
  end.
Proof.
  intros Hm. unfold binary_round_aux.
  pose proof (shr_fexp_spec mx ex lx Hm) as [Hm1 _].
  destruct (shr_fexp prec emax mx ex lx) as [mrs1 e1]. cbn [fst] in Hm1.
  pose proof (round_nearest_even_range (shr_m mrs1) (loc_of_shr_record mrs1)) as Hr.
  set (m1 := round_nearest_even (shr_m mrs1) (loc_of_shr_record mrs1)) in *.
  assert (Hm1' : 0 <= m1) by lia.
  pose proof (shr_fexp_spec m1 e1 loc_Exact Hm1') as [Hm2 _].
  destruct (shr_fexp prec emax m1 e1 loc_Exact) as [mrs2 e2]. cbn [fst] in Hm2.
  destruct (shr_m mrs2) as [|p|p]; [reflexivity| |lia].
  destruct (e2 <=? emax - prec); reflexivity.
Qed.

Lemma binary_round_aux_nonneg (mx ex : Z) (lx : location) :
  0 <= mx -> SFnonneg (binary_round_aux prec emax false mx ex lx).
Proof.
  intros Hm. pose proof (binary_round_aux_sign false mx ex lx Hm) as H.
  destruct (binary_round_aux prec emax false mx ex lx) as [s|s| |s m e];
    simpl; try contradiction; subst s; exact I.
Qed.

(** A normal finite double has a full 53-bit mantissa. *)
Lemma valid_binary_normal (s : bool) (m : positive) (e : Z) :
  valid_binary (S754_finite s m e) = true -> -1074 < e -> 2 ^ 52 <= Zpos m.
Proof.
  unfold SpecFloat.valid_binary, bounded, canonical_mantissa.
  rewrite fexp64. intros H He.
  apply andb_prop in H as [Hc _]. apply Z.eqb_eq in Hc.
  pose proof (Zpos_ge_pow2_digits m) as Hge.
  replace (Zpos (digits2_pos m) - 1) with 52 in Hge by lia. exact Hge.
Qed.

Lemma SFmul_nonneg (x : spec_float) (mc : positive) (ec : Z) :
  SFnonneg x -> SFnonneg (SF64mul x (S754_finite false mc ec)).
Proof.
  destruct x as [sx|[|]| |[|] mx ex]; simpl; try contradiction; intros _;
    try exact I.
  apply binary_round_aux_nonneg. lia.
Qed.

Lemma SFdiv_nonneg (x : spec_float) (mc : positive) (ec : Z) :
  SFnonneg x -> SFnonneg (SF64div x (S754_finite false mc ec)).
Proof.
  destruct x as [sx|[|]| |[|] mx ex]; simpl; try contradiction; intros _;
    try exact I.
  unfold SFdiv_core_binary.
  match goal with
  | |- context [Z.div_eucl ?a ?b] =>
      pose proof (Z.div_pos a b) as Hq; unfold Z.div in Hq;
      destruct (Z.div_eucl a b) as [q r] eqn:E
  end.
  apply binary_round_aux_nonneg. apply Hq; [|lia].
  match goal with
  | |- 0 <= match ?s with _ => _ end => destruct s
  end; try lia.
  rewrite Z.shiftl_mul_pow2 by lia.
  apply Z.mul_nonneg_nonneg; [lia|]. apply Z.pow_nonneg. lia.
Qed.

(** Subtracting a smaller positive constant from a double of exponent at
    least -33 (magnitude at least 2^19) does not go below zero. *)
Lemma SFsub_nonneg (mx : positive) (ex : Z) (mc : positive) (ec : Z) :
  valid_binary (S754_finite false mx ex) = true ->
  valid_binary (S754_finite false mc ec) = true ->
  -33 <= ex -> ec < -33 ->
  SFnonneg (SF64sub (S754_finite false mx ex) (S754_finite false mc ec)).
Proof.
  intros Vx Vc Hex Hec.
  pose proof (valid_binary_normal _ _ _ Vx ltac:(lia)) as Hmx.
  apply valid_binary_finite in Vc as [Hmc _].
  unfold SF64sub, SFsub.
  pose proof (shl_align_spec mx ex (Z.min ex ec)) as [_ Ha].
  pose proof (shl_align_spec mc ec (Z.min ex ec)) as [_ Hb].
  cbn [cond_Zopp].
  rewrite Ha, Hb.
  replace (Z.min ex (Z.min ex ec)) with ec by lia.
  replace (Z.min ec (Z.min ex ec)) with ec by lia.
  rewrite Z.sub_diag, Z.pow_0_r, Z.mul_1_r.
  assert (Hp : 2 <= 2 ^ (ex - ec)).
  { change 2 with (2 ^ 1) at 1. apply Z.pow_le_mono_r; lia. }
  assert (Hpos : 0 < Zpos mx * 2 ^ (ex - ec) - Zpos mc) by nia.
  destruct (Zpos mx * 2 ^ (ex - ec) - Zpos mc) as [|p|p]; try lia.
  unfold binary_normalize, binary_round.
  destruct (shl_align p (Z.min ex ec) _) as [mz ez].
  apply binary_round_aux_nonneg. lia.
Qed.
End Signs.

(** What lies above 1e6: plus infinity and the positive finite doubles
    of exponent at least -33. *)
Lemma above_1e6_shape (v : double) :
  (1e6 <? v)%float = true ->
  Prim2SF v = S754_infinity false \/
  exists (m : positive) (e : Z),
    Prim2SF v = S754_finite false m e /\ (-33 <= e)%Z.
Proof.
  rewrite ltb_spec.
  change (Prim2SF 1e6) with (S754_finite false 8589934592000000 (-33)).
  destruct (Prim2SF v) as [s|s| |s m e]; simpl; try discriminate.
  - destruct s; [discriminate|]. auto.
  - destruct s; [discriminate|]. intros H. right. exists m, e. split; [reflexivity|].
    unfold SFltb, SFcompare in H.
    destruct (Z.compare_spec (-33) e) as [E|E|E]; [lia | lia | discriminate H].
Qed.

Lemma nonneg_not_below (x c : double) (mc : positive) (ec : Z) :
  SFnonneg (Prim2SF x) -> Prim2SF c = S754_finite true mc ec ->
  (x <? c)%float = false.
Proof.
  intros Hx Hc. rewrite ltb_spec, Hc.
  destruct (Prim2SF x) as [s|[|]| |[|] m e]; simpl in Hx; try contradiction;
    reflexivity.
Qed.

Lemma above_1e6_validates (v : double) :
  (1e6 <? v)%float = true ->
  (v <? 0)%float = false /\
  ((v - 32) * 5 / 9 <? -273.15)%float = false /\
  (v - 273.15 <? -273.15)%float = false.
Proof.
  intros Hv. pose proof (Prim2SF_valid v) as Vv.
  assert (Hsub : forall (c : double) (mc : positive) (ec : Z),
             Prim2SF c = S754_finite false mc ec -> (ec < -33)%Z ->
             SFnonneg (Prim2SF (v - c))).
  { intros c mc ec Ec Hec. rewrite sub_spec, Ec.
    pose proof (Prim2SF_valid c) as Vc. rewrite Ec in Vc.
    destruct (above_1e6_shape v Hv) as [E|(m & e & E & He)]; rewrite E in *.
    - exact I.
    - apply SFsub_nonneg; assumption. }
  split; [|split].
  - rewrite ltb_spec. change (Prim2SF 0) with (S754_zero false).
    destruct (above_1e6_shape v Hv) as [E|(m & e & E & He)]; rewrite E;
      reflexivity.
  - eapply nonneg_not_below; [|vm_compute; reflexivity].
    rewrite div_spec.
    change (Prim2SF 9) with (S754_finite false 5066549580791808 (-49)).
    apply SFdiv_nonneg. rewrite mul_spec.
    change (Prim2SF 5) with (S754_finite false 5629499534213120 (-50)).
    apply SFmul_nonneg.
    eapply Hsub; [vm_compute; reflexivity|reflexivity].
  - eapply nonneg_not_below; [|vm_compute; reflexivity].
    eapply Hsub; [vm_compute; reflexivity|reflexivity].
Qed.

(** Every double above 1e6, plus infinity included, passes the range
    checks of each of the 16 registered names and is converted as 1e6 is:
    above the bound the result no longer depends on the input. *)
Theorem inputs_above_1e6_saturate
    (name : string) (f : double -> double) (v : double) :
  (name, f) ∈ spec_table ->
  (1e6 <? v)%float = true ->
  convert name v UnitConverter_new = (Return (f 1e6%float), UnitConverter_new) /\
  convert name v UnitConverter_new = convert name 1e6 UnitConverter_new.
Proof.
  intros Hin Hv.
  destruct (above_1e6_validates v Hv) as (H0 & HF & HK).
  assert (Hc : clamp v = 1e6%float) by (unfold clamp; rewrite Hv; reflexivity).
  assert (Hval : validation name v = None).
  { unfold spec_table in Hin.
    repeat (apply elem_of_cons in Hin as [[= -> ->]|Hin];
            [first [ rewrite (proj1 (validation_Fahrenheit_names v)), HF
                   | rewrite (proj2 (validation_Fahrenheit_names v)), HF
                   | rewrite (proj1 (validation_Kelvin_names v)), HK
                   | rewrite (proj2 (validation_Kelvin_names v)), HK
                   | unfold validation;
                     match goal with
                     | |- context [is_temperature ?n] =>
                         change (is_temperature n) with false
                     end;
                     rewrite H0, !andb_false_r ];
             reflexivity|]).
    apply elem_of_nil in Hin. contradiction. }
  assert (H1 : convert name v UnitConverter_new
               = (Return (f 1e6%float), UnitConverter_new)).
  { rewrite convert_unfold, Hval, Hc. unfold dispatch.
    rewrite (registry_lookup _ _ Hin). reflexivity. }
  split; [exact H1|]. rewrite H1. symmetry.
  apply convert_in_range; try reflexivity; try exact Hin.
  unfold spec_table in Hin.
  repeat (apply elem_of_cons in Hin as [[= -> ->]|Hin];
          [vm_compute; reflexivity|]).
  apply elem_of_nil in Hin. contradiction.
Qed.

Lemma inputs_above_1e6_saturate_witness :
  convert "FahrenheitToCelsius" infinity UnitConverter_new
  = (Return ((1e6 - 32) * 5 / 9)%float, UnitConverter_new).
Proof.
  refine (proj1 (inputs_above_1e6_saturate "FahrenheitToCelsius"
                   (fun f => (f - 32) * 5 / 9)%float infinity _ _)).
  - apply list_elem_of_further, list_elem_of_here.
  - reflexivity.
Defined.

(** ** Inputs below the lower bound *)

Section LowerBounds.
Local Open Scope Z_scope.

Lemma Zdigits2_ge (m k : Z) : 0 <= k -> 2 ^ k <= m -> k + 1 <= Zdigits2 m.
Proof.
  intros Hk Hm.
  assert (H0 : 0 < 2 ^ k) by (apply Z.pow_pos_nonneg; lia).
  pose proof (Zdigits2_lt_pow2 m ltac:(lia)) as Hlt.
  pose proof (Zdigits2_nonneg m) as Hd.
  destruct (Z_le_gt_dec (k + 1) (Zdigits2 m)) as [|Hgt]; [assumption|].
  assert (2 ^ Zdigits2 m <= 2 ^ k) by (apply Z.pow_le_mono_r; lia).
  lia.
Qed.

Lemma Zdigits2_pow2_le (m : Z) : 0 < m -> 2 ^ (Zdigits2 m - 1) <= m.
Proof. destruct m as [|p|p]; try lia. intros _. apply Zpos_ge_pow2_digits. Qed.

(** The mantissa a normalizing shift leaves. *)
Lemma shr_fexp_m (m e : Z) (l : location) :
  0 <= m ->
  shr_m (fst (shr_fexp prec emax m e l))
  = m / 2 ^ Z.max 0 (fexp prec emax (Zdigits2 m + e) - e).
Proof.
  intros Hm. unfold shr_fexp, shr.
  assert (Hrec : shr_m (shr_record_of_loc m l) = m)
    by (destruct l as [|[]]; reflexivity).
  destruct (fexp prec emax (Zdigits2 m + e) - e) as [|n|n]; cbn [fst].
  - rewrite Hrec. simpl. rewrite Z.div_1_r. reflexivity.
  - rewrite iter_shr_1_m by (rewrite Hrec; lia). rewrite Hrec.
    replace (Z.max 0 (Zpos n)) with (Zpos n) by lia. reflexivity.
  - rewrite Hrec. replace (Z.max 0 (Zneg n)) with 0 by lia.
    simpl. rewrite Z.div_1_r. reflexivity.
Qed.

(** A shift that stays in the normal range leaves a positive mantissa
    and loses no leading digit. *)
Lemma shr_fexp_positive (m e : Z) (l : location) :
  0 < m -> -1074 <= Zdigits2 m + e - 53 ->
  1 <= shr_m (fst (shr_fexp prec emax m e l)) /\
  Zdigits2 m + e
  <= Zdigits2 (shr_m (fst (shr_fexp prec emax m e l)))
     + snd (shr_fexp prec emax m e l).
Proof.
  intros Hm Hn.
  pose proof (shr_fexp_spec m e l ltac:(lia)) as [_ He].
  rewrite shr_fexp_m by lia. rewrite He. clear He. rewrite fexp64.
  pose proof (Zdigits2_pow2_le m Hm) as Hge.
  pose proof (Zdigits2_ge m 0 ltac:(lia) ltac:(simpl; lia)) as Hd.
  set (d := Zdigits2 m) in *.
  set (n := Z.max 0 (Z.max (d + e - 53) (-1074) - e)).
  assert (Hn0 : 0 <= n <= d - 1) by (unfold n; lia).
  assert (Hq : 2 ^ (d - 1 - n) <= m / 2 ^ n).
  { apply Z.div_le_lower_bound; [apply Z.pow_pos_nonneg; lia|].
    rewrite <- Z.pow_add_r by lia.
    replace (n + (d - 1 - n)) with (d - 1) by lia. exact Hge. }
  assert (H0 : 0 < 2 ^ (d - 1 - n)) by (apply Z.pow_pos_nonneg; lia).
  split; [lia|].
  pose proof (Zdigits2_ge (m / 2 ^ n) (d - 1 - n) ltac:(lia) Hq).
  unfold n in *. lia.
Qed.

(** Rounding a positive mantissa of at least [D] digits, in the normal
    range: the result is an infinity or a finite number, of the sign
    given and of exponent at least [D + ex - 53]. *)
Lemma binary_round_aux_large (sx : bool) (mx ex : Z) (lx : location) (D : Z) :
  0 < mx -> D <= Zdigits2 mx -> -1074 <= D + ex - 53 ->
  match binary_round_aux prec emax sx mx ex lx with
  | S754_infinity s => s = sx
  | S754_finite s _ e => s = sx /\ D + ex - 53 <= e
  | _ => False
  end.
Proof.
  intros Hm HD Hn. unfold binary_round_aux.
  pose proof (shr_fexp_spec mx ex lx ltac:(lia)) as [Hm1 He1].
  pose proof (shr_fexp_positive mx ex lx Hm ltac:(lia)) as [Hp1 Hg1].
  destruct (shr_fexp prec emax mx ex lx) as [mrs1 e1].
  cbn [fst snd] in Hm1, He1, Hp1, Hg1.
  pose proof (round_nearest_even_range (shr_m mrs1) (loc_of_shr_record mrs1)) as Hr.
  set (m1 := round_nearest_even (shr_m mrs1) (loc_of_shr_record mrs1)) in *.
  assert (Hm1' : 0 < m1) by lia.
  rewrite fexp64 in He1.
  assert (Hmono : Zdigits2 (shr_m mrs1) <= Zdigits2 m1).
  { pose proof (Zdigits2_pow2_le (shr_m mrs1) ltac:(lia)) as Hlo.
    pose proof (Zdigits2_ge (shr_m mrs1) 0 ltac:(lia) ltac:(simpl; lia)).
    pose proof (Zdigits2_ge m1 (Zdigits2 (shr_m mrs1) - 1) ltac:(lia)
                  ltac:(lia)).
    lia. }
  pose proof (shr_fexp_spec m1 e1 loc_Exact ltac:(lia)) as [_ He2].
  pose proof (shr_fexp_positive m1 e1 loc_Exact Hm1' ltac:(lia)) as [Hp2 _].
  destruct (shr_fexp prec emax m1 e1 loc_Exact) as [mrs2 e2].
  cbn [fst snd] in He2, Hp2. rewrite fexp64 in He2.
  destruct (shr_m mrs2) as [|p|p]; try lia.
  destruct (e2 <=? emax - prec); [split; [reflexivity|lia]|reflexivity].
Qed.

Lemma normal_digits (m : positive) :
  2 ^ 52 <= Zpos m -> Zpos m < 2 ^ 53 -> Zpos (digits2_pos m) = 53.
Proof.
  intros Hlo Hhi.
  pose proof (Zdigits2_le (Zpos m) 53 ltac:(lia) ltac:(lia) Hhi) as H1.
  pose proof (Zdigits2_ge (Zpos m) 52 ltac:(lia) Hlo) as H2.
  simpl in H1, H2. lia.
Qed.

(** Subtracting a positive constant from a large negative double. *)
Lemma SFsub_below (x : spec_float) (mc : positive) (ec L : Z) :
  valid_binary x = true ->
  SFbelow L x -> -1074 < L -> ec <= L ->
  SFbelow L (SF64sub x (S754_finite false mc ec)).
Proof.
  intros Vx Bx HL Hec.
  destruct x as [sx|[|]| |[|] mx ex]; simpl in Bx; try contradiction;
    [exact I|].
  pose proof (valid_binary_normal _ _ _ Vx ltac:(lia)) as Hmx.
  unfold SF64sub, SFsub.
  pose proof (shl_align_spec mx ex (Z.min ex ec)) as [_ Ha].
  pose proof (shl_align_spec mc ec (Z.min ex ec)) as [_ Hb].
  cbn [cond_Zopp]. rewrite Ha, Hb.
  replace (Z.min ex (Z.min ex ec)) with ec by lia.
  replace (Z.min ec (Z.min ex ec)) with ec by lia.
  replace (Z.min ex ec) with ec by lia.
  rewrite Z.sub_diag, Z.pow_0_r, Z.mul_1_r.
  assert (Hp : 2 ^ (52 + (ex - ec)) <= Zpos mx * 2 ^ (ex - ec)).
  { rewrite Z.pow_add_r by lia. apply Z.mul_le_mono_nonneg_r; [|exact Hmx].
    apply Z.pow_nonneg. lia. }
  assert (H0 : 0 < 2 ^ (52 + (ex - ec))) by (apply Z.pow_pos_nonneg; lia).
  destruct (- (Zpos mx * 2 ^ (ex - ec)) - Zpos mc) as [|p|p] eqn:EM; try lia.
  assert (Hpd : 53 + (ex - ec) <= Zpos (digits2_pos p)).
  { pose proof (Zdigits2_ge (Zpos p) (52 + (ex - ec)) ltac:(lia) ltac:(lia)).
    simpl in H. lia. }
  unfold binary_normalize, binary_round. rewrite fexp64.
  pose proof (shl_align_spec p ec
                (Z.max (Zpos (digits2_pos p) + ec - 53) (-1074))) as [He Hm].
  destruct (shl_align p ec (Z.max (Zpos (digits2_pos p) + ec - 53) (-1074)))
    as [mz ez].
  cbn [fst snd] in He, Hm.
  replace (Z.min ec (Z.max (Zpos (digits2_pos p) + ec - 53) (-1074))) with ec
    in He, Hm by lia.
  rewrite Z.sub_diag, Z.pow_0_r, Z.mul_1_r in Hm. injection Hm as ->. subst ez.
  pose proof (binary_round_aux_large true (Zpos p) ec loc_Exact
                (53 + (ex - ec)) ltac:(lia) Hpd ltac:(lia)) as H.
  destruct (binary_round_aux prec emax true (Zpos p) ec loc_Exact)
    as [s|s| |s m e]; try contradiction.
  - subst s. exact I.
  - destruct H as [-> H]. simpl. lia.
Qed.

(** Multiplying a large negative double by a positive normal constant. *)
Lemma SFmul_below (x : spec_float) (mc : positive) (ec L : Z) :
  valid_binary x = true ->
  SFbelow L x -> -1074 < L -> 2 ^ 52 <= Zpos mc -> -1074 <= L + ec + 52 ->
  SFbelow (L + ec + 52) (SF64mul x (S754_finite false mc ec)).
Proof.
  intros Vx Bx HL Hmc Hn.
  destruct x as [sx|[|]| |[|] mx ex]; simpl in Bx; try contradiction;
    [exact I|].
  pose proof (valid_binary_normal _ _ _ Vx ltac:(lia)) as Hmx.
  unfold SF64mul, SFmul. cbn [xorb].
  assert (Hprod : 2 ^ 104 <= Zpos (mx * mc)).
  { rewrite Pos2Z.inj_mul. change (2 ^ 104) with (2 ^ 52 * 2 ^ 52).
    apply Z.mul_le_mono_nonneg; lia. }
  pose proof (Zdigits2_ge (Zpos (mx * mc)) 104 ltac:(lia) Hprod) as Hd.
  pose proof (binary_round_aux_large true (Zpos (mx * mc)) (ex + ec) loc_Exact
                105 ltac:(lia) ltac:(lia) ltac:(lia)) as H.
  destruct (binary_round_aux prec emax true (Zpos (mx * mc)) (ex + ec) loc_Exact)
    as [s|s| |s m e]; try contradiction.
  - subst s. exact I.
  - destruct H as [-> H]. simpl. lia.
Qed.

(** Dividing a large negative double by a positive normal constant. *)
Lemma SFdiv_below (x : spec_float) (mc : positive) (ec L : Z) :
  valid_binary x = true ->
  SFbelow L x -> -1074 < L ->
  2 ^ 52 <= Zpos mc -> Zpos mc < 2 ^ 53 -> -1074 <= L - ec - 53 ->
  SFbelow (L - ec - 53) (SF64div x (S754_finite false mc ec)).
Proof.
  intros Vx Bx HL Hmc Hmc' Hn.
  destruct x as [sx|[|]| |[|] mx ex]; simpl in Bx; try contradiction;
    [exact I|].
  pose proof (valid_binary_normal _ _ _ Vx ltac:(lia)) as Hmx.
  apply valid_binary_finite in Vx as [Hmx' _].
  unfold SF64div, SFdiv, SFdiv_core_binary. cbn [xorb Zdigits2].
  rewrite (normal_digits mx Hmx Hmx'), (normal_digits mc Hmc Hmc'), fexp64.
  replace (Z.min (Z.max (53 + ex - (53 + ec) - 53) (-1074)) (ex - ec))
    with (ex - ec - 53) by lia.
  replace (ex - ec - (ex - ec - 53)) with 53 by lia.
  rewrite Z.shiftl_mul_pow2 by lia.
  assert (Hq : 2 ^ 52 <= Zpos mx * 2 ^ 53 / Zpos mc).
  { apply Z.div_le_lower_bound; [lia|].
    change (2 ^ 53) with (2 * 2 ^ 52) in *. nia. }
  unfold Z.div in Hq.
  destruct (Z.div_eucl (Zpos mx * 2 ^ 53) (Zpos mc)) as [q r].
  pose proof (Zdigits2_ge q 52 ltac:(lia) Hq) as Hd.
  pose proof (binary_round_aux_large true q (ex - ec - 53)
                (new_location (Zpos mc) r) 53
                ltac:(lia) ltac:(lia) ltac:(lia)) as H.
  destruct (binary_round_aux prec emax true q (ex - ec - 53)
              (new_location (Zpos mc) r))
    as [s|s| |s m e]; try contradiction.
  - subst s. exact I.
  - destruct H as [-> H]. simpl. lia.
Qed.
End LowerBounds.

(** What lies below -1e6: minus infinity and the negative finite doubles
    of exponent at least -33. *)
Lemma below_minus_1e6_shape (v : double) :
  (v <? -1e6)%float = true -> SFbelow (-33) (Prim2SF v).
Proof.
  rewrite ltb_spec.
  change (Prim2SF (-1e6)) with (S754_finite true 8589934592000000 (-33)).
  destruct (Prim2SF v) as [s|[|]| |[|] m e]; simpl; try discriminate;
    try (intros _; exact I).
  unfold SFltb, SFcompare. intros H.
  destruct (Z.compare_spec e (-33)) as [E|E|E];
    [lia | discriminate H | lia].
Qed.

Lemma below_is_less (x c : double) (mc : positive) (ec L : Z) :
  SFbelow L (Prim2SF x) -> Prim2SF c = S754_finite true mc ec ->
  (ec < L)%Z -> (x <? c)%float = true.
Proof.
  intros Hx Hc HL. rewrite ltb_spec, Hc.
  destruct (Prim2SF x) as [s|[|]| |[|] m e]; simpl in Hx; try contradiction.
  - reflexivity.
  - unfold SFltb, SFcompare.
    destruct (Z.compare_spec e ec) as [E|E|E]; first [lia | reflexivity].
Qed.

Lemma below_minus_1e6_fails (v : double) :
  (v <? -1e6)%float = true ->
  (v <? 0)%float = true /\
  ((v - 32) * 5 / 9 <? -273.15)%float = true /\
  (v - 273.15 <? -273.15)%float = true.
Proof.
  intros Hv. pose proof (below_minus_1e6_shape v Hv) as Bv.
  assert (Hsub : forall (c : double) (mc : positive) (ec : Z),
             Prim2SF c = S754_finite false mc ec -> (ec <= -33)%Z ->
             SFbelow (-33) (Prim2SF (v - c))).
  { intros c mc ec Ec Hec. rewrite sub_spec, Ec.
    apply SFsub_below; [apply Prim2SF_valid|exact Bv|lia|exact Hec]. }
  split; [|split].
  - rewrite ltb_spec. change (Prim2SF 0) with (S754_zero false).
    destruct (Prim2SF v) as [s|[|]| |[|] m e]; simpl in Bv; try contradiction;
      reflexivity.
  - eapply (below_is_less _ _ _ _ (-35)); [|vm_compute; reflexivity|reflexivity].
    rewrite div_spec.
    change (Prim2SF 9) with (S754_finite false 5066549580791808 (-49)).
    apply (SFdiv_below _ _ (-49) (-31));
      [apply Prim2SF_valid| |reflexivity|discriminate|reflexivity|discriminate].
    rewrite mul_spec.
    change (Prim2SF 5) with (S754_finite false 5629499534213120 (-50)).
    apply (SFmul_below _ _ (-50) (-33));
      [apply Prim2SF_valid| |reflexivity|discriminate|discriminate].
    eapply Hsub; [vm_compute; reflexivity|discriminate].
  - eapply (below_is_less _ _ _ _ (-33)); [|vm_compute; reflexivity|reflexivity].
    eapply Hsub; [vm_compute; reflexivity|discriminate].
Qed.

(** Every double below -1e6, minus infinity included, is refused under
    each of the 16 registered names, with the name's range error: the
    lower clamp is never what a registered formula receives. *)
Theorem inputs_below_minus_1e6_rejected
    (name : string) (f : double -> double) (v : double) :
  (name, f) ∈ spec_table ->
  (v <? -1e6)%float = true ->
  convert name v UnitConverter_new
  = (Throw (if is_temperature name then BelowAbsoluteZero
            else if is_distance name then NegativeDistance
                 else if is_weight name then NegativeWeight
                      else NegativeVolume),
     UnitConverter_new).
Proof.
  intros Hin Hv.
  destruct (below_minus_1e6_fails v Hv) as (H0 & HF & HK).
  apply convert_eval. unfold spec_table in Hin.
  repeat (apply elem_of_cons in Hin as [[= -> ->]|Hin];
          [first [ rewrite (proj1 (validation_Fahrenheit_names v)), HF
                 | rewrite (proj2 (validation_Fahrenheit_names v)), HF
                 | rewrite (proj1 (validation_Kelvin_names v)), HK
                 | rewrite (proj2 (validation_Kelvin_names v)), HK
                 | unfold validation;
                   match goal with
                   | |- context [is_temperature ?n] =>
                       change (is_temperature n) with false;
                       let d := eval vm_compute in (is_distance n) in
                       change (is_distance n) with d;
                       let w := eval vm_compute in (is_weight n) in
                       change (is_weight n) with w;
                       let o := eval vm_compute in (is_volume n) in
                       change (is_volume n) with o
                   end;
                   rewrite H0 ];
           reflexivity|]).
  apply elem_of_nil in Hin. contradiction.
Qed.

Lemma inputs_below_minus_1e6_rejected_witness :
  convert "KelvinToCelsius" neg_infinity UnitConverter_new
  = (Throw BelowAbsoluteZero, UnitConverter_new).
Proof.
  refine (inputs_below_minus_1e6_rejected "KelvinToCelsius"
            (fun k => k - 273.15)%float neg_infinity _ _).
  - do 3 apply list_elem_of_further. apply list_elem_of_here.
  - reflexivity.
Defined.

(** * Round trips

    The error of a round trip through two paired formulas is bounded by
    following the roundings one operation at a time: each operation on
    finite doubles returns the exact real result up to [2^E], where
    [2^(E + 53)] bounds the magnitude of that result. *)

(** ** Powers of two *)

Section Powers.
Local Open Scope R_scope.

Lemma bpow_gt_0 (e : Z) : 0 < bpow e.
Proof. apply powerRZ_lt. lra. Qed.

Lemma bpow_add (a b : Z) : bpow (a + b) = bpow a * bpow b.
Proof. apply powerRZ_add. lra. Qed.

Lemma bpow_IZR (k : Z) : (0 <= k)%Z -> bpow k = IZR (2 ^ k).
Proof.
  intros Hk. destruct k as [|p|p]; [reflexivity| |lia].
  unfold bpow. symmetry. apply Zpower_pos_powerRZ.
Qed.

Lemma bpow_le (a b : Z) : (a <= b)%Z -> bpow a <= bpow b.
Proof.
  intros H. replace b with (a + (b - a))%Z by lia.
  rewrite bpow_add, (bpow_IZR (b - a)) by lia.
  pose proof (bpow_gt_0 a) as Ha.
  assert (1 <= IZR (2 ^ (b - a))).
  { apply IZR_le. assert (0 < 2 ^ (b - a))%Z by (apply Z.pow_pos_nonneg; lia). lia. }
  rewrite <- (Rmult_1_r (bpow a)) at 1.
  apply Rmult_le_compat_l; lra.
Qed.


End Powers.

(** ** The error of one rounding *)

Section RoundingError.
Local Open Scope Z_scope.

End RoundingError.

Section RoundingErrorR.
Local Open Scope R_scope.

End RoundingErrorR.

(** ** The error of one operation *)

Section OperationErrors.
Local Open Scope R_scope.



(** A valid finite double is at least [2^(52 + e)] in magnitude, unless
    it is subnormal. *)
Lemma valid_magnitude (s : bool) (m : positive) (e : Z) :
  valid_binary (S754_finite s m e) = true ->
  (-1074 <= e <= 971)%Z /\
  (e = (-1074)%Z \/ bpow (52 + e) <= IZR (Zpos m) * bpow e).
Proof.
  intros V. pose proof (valid_binary_finite s m e V) as [_ He].
  split; [exact He|].
  destruct (Z.eq_dec e (-1074)%Z) as [->|Hn]; [left; reflexivity|right].
  pose proof (valid_binary_normal s m e V ltac:(lia)) as Hm.
  rewrite bpow_add, (bpow_IZR 52%Z) by lia.
  apply Rmult_le_compat_r; [left; apply bpow_gt_0|].
  apply IZR_le. exact Hm.
Qed.

Lemma SF2R_finite (s : bool) (m : positive) (e : Z) :
  SF2R (S754_finite s m e)
  = (if s then - (IZR (Zpos m) * bpow e) else IZR (Zpos m) * bpow e).
Proof.
  unfold SF2R. destruct s; simpl; [|reflexivity].
  rewrite opp_IZR. ring.
Qed.

Lemma IZR_pos_gt_0 (m : positive) : 0 < IZR (Zpos m).
Proof. apply IZR_lt. lia. Qed.

(** *** Multiplication *)


(** *** Division by a finite nonzero double *)

End OperationErrors.

Section SumErrors.
Local Open Scope R_scope.





End SumErrors.

(** ** Order and arithmetic of doubles as reals *)

Section RealOrder.
Local Open Scope R_scope.

Lemma canonical_lt (s1 s2 : bool) (m1 m2 : positive) (e1 e2 : Z) :
  valid_binary (S754_finite s1 m1 e1) = true ->
  valid_binary (S754_finite s2 m2 e2) = true ->
  (e1 < e2)%Z ->
  IZR (Zpos m1) * bpow e1 < IZR (Zpos m2) * bpow e2.
Proof.
  intros V1 V2 He.
  pose proof (valid_binary_finite s1 m1 e1 V1) as [Hm1 He1].
  destruct (valid_magnitude s2 m2 e2 V2) as [_ [E2|M2]]; [lia|].
  eapply Rlt_le_trans; [|exact M2].
  apply Rlt_le_trans with (bpow (53 + e1)); [|apply bpow_le; lia].
  rewrite bpow_add, (bpow_IZR 53%Z) by lia.
  apply Rmult_lt_compat_r; [apply bpow_gt_0|]. apply IZR_lt. exact Hm1.
Qed.

Lemma SFcompare_pos (s1 s2 : bool) (m1 m2 : positive) (e1 e2 : Z) :
  valid_binary (S754_finite s1 m1 e1) = true ->
  valid_binary (S754_finite s2 m2 e2) = true ->
  match
    match (e1 ?= e2)%Z with
    | Eq => Pos.compare_cont Eq m1 m2
    | Lt => Lt
    | Gt => Gt
    end
  with
  | Lt => IZR (Zpos m1) * bpow e1 < IZR (Zpos m2) * bpow e2
  | Eq => IZR (Zpos m1) * bpow e1 = IZR (Zpos m2) * bpow e2
  | Gt => IZR (Zpos m2) * bpow e2 < IZR (Zpos m1) * bpow e1
  end.
Proof.
  intros V1 V2.
  destruct (Z.compare_spec e1 e2) as [->|He|He].
  - change (Pos.compare_cont Eq m1 m2) with (m1 ?= m2)%positive.
    pose proof (bpow_gt_0 e2).
    destruct (Pos.compare_spec m1 m2) as [->|Hm|Hm].
    + reflexivity.
    + apply Rmult_lt_compat_r; [assumption|]. apply IZR_lt. lia.
    + apply Rmult_lt_compat_r; [assumption|]. apply IZR_lt. lia.
  - apply (canonical_lt s1 s2); assumption.
  - apply (canonical_lt s2 s1); assumption.
Qed.

(** On finite doubles the comparison of [SpecFloat] is the order of the
    reals they stand for. *)
Lemma SFcompare_real (x y : spec_float) :
  valid_binary x = true -> valid_binary y = true ->
  SFfinite x -> SFfinite y ->
  match SFcompare x y with
  | Some Lt => SF2R x < SF2R y
  | Some Eq => SF2R x = SF2R y
  | Some Gt => SF2R y < SF2R x
  | None => False
  end.
Proof.
  intros Vx Vy Fx Fy.
  destruct x as [sx|sx| |sx mx ex], y as [sy|sy| |sy my ey];
    simpl in Fx, Fy; try contradiction.
  - reflexivity.
  - cbn [SFcompare]. rewrite SF2R_finite. simpl (SF2R (S754_zero _)).
    pose proof (Rmult_lt_0_compat _ _ (IZR_pos_gt_0 my) (bpow_gt_0 ey)).
    destruct sy; lra.
  - cbn [SFcompare]. rewrite SF2R_finite. simpl (SF2R (S754_zero _)).
    pose proof (Rmult_lt_0_compat _ _ (IZR_pos_gt_0 mx) (bpow_gt_0 ex)).
    destruct sx; lra.
  - cbn [SFcompare]. rewrite !SF2R_finite.
    pose proof (Rmult_lt_0_compat _ _ (IZR_pos_gt_0 mx) (bpow_gt_0 ex)).
    pose proof (Rmult_lt_0_compat _ _ (IZR_pos_gt_0 my) (bpow_gt_0 ey)).
    pose proof (SFcompare_pos sx sy mx my ex ey Vx Vy) as Hc.
    destruct sx, sy; try lra.
    + destruct (match (ex ?= ey)%Z with
                | Eq => Pos.compare_cont Eq mx my | Lt => Lt | Gt => Gt end)
        eqn:Ec.
      * destruct (ex ?= ey)%Z; try discriminate Ec. rewrite Ec. simpl. lra.
      * destruct (ex ?= ey)%Z; try discriminate Ec; try rewrite Ec; simpl; lra.
      * destruct (ex ?= ey)%Z; try discriminate Ec; try rewrite Ec; simpl; lra.
    + destruct (match (ex ?= ey)%Z with
                | Eq => Pos.compare_cont Eq mx my | Lt => Lt | Gt => Gt end);
        lra.
Qed.
End RealOrder.

Section DoubleReals.
Local Open Scope R_scope.

Lemma ltb_real (x y : float) :
  finite_double x -> finite_double y ->
  ((x <? y)%float = true <-> B2R x < B2R y).
Proof.
  intros Fx Fy. rewrite FloatAxioms.ltb_spec. unfold SFltb, B2R.
  pose proof (SFcompare_real (Prim2SF x) (Prim2SF y)
                (Prim2SF_valid x) (Prim2SF_valid y) Fx Fy) as H.
  destruct (SFcompare (Prim2SF x) (Prim2SF y)) as [[]|];
    try contradiction; split; intros; try lra; try discriminate; reflexivity.
Qed.







End DoubleReals.

(** ** The sixteen round trips

    Each proof follows its two formulas one operation at a time.
    [step lem a b E] adds, for the operation on [a] and [b], that the
    result is finite and within [2^E] of the exact real result, once the
    exact result is known to be below [2^(E + 53)] in magnitude; the
    bounds collected so far decide that by linear arithmetic. The last
    step is the subtraction inside [std::fabs]. *)












Section RoundTrips.
Local Open Scope R_scope.
Variable x : double.
Hypothesis x_lower : (-1e6 <=? x)%float = true.
Hypothesis x_upper : (x <=? 1e6)%float = true.
















End RoundTrips.

(** ** The paired conversions *)







(** * The interactive functions *)

Section ConsoleProperties.
Context {istream : Type} {runtime : Runtime istream}.
Implicit Types (io : console istream) (converter : UnitConverter).

(** A [switch] over the cases 1 to 4 takes its [default] on every other
    integer. *)
Lemma switch_default {A : Type} (a1 a2 a3 a4 d : A) (z : Z) :
  z <> 1%Z -> z <> 2%Z -> z <> 3%Z -> z <> 4%Z ->
  match z with 1 => a1 | 2 => a2 | 3 => a3 | 4 => a4 | _ => d end%Z = d.
Proof.
  intros H1 H2 H3 H4.
  destruct z as [|p|p]; try reflexivity.
  destruct p as [[p|p|]|[p|[p|p|]|]|]; try reflexivity; congruence.
Qed.

Ltac category_case v converter :=
  cbn -[convert];
  match goal with
  | |- context [?l !! Z.to_nat ?k] =>
      let r := eval vm_compute in (l !! Z.to_nat k) in
      change (l !! Z.to_nat k) with r
  end;
  cbv beta iota;
  destruct (convert _ v converter) as [[r|e] self'];
  cbn [written cin report result fst]; rewrite <- !app_assoc; reflexivity.

(** The decision table shared by the four category functions. *)
Lemma category_function_table
    (c : nat) (F : UnitConverter -> console istream -> console istream)
    (prompt : string) converter io :
  category_functions !! c = Some F ->
  category_prompts !! c = Some prompt ->
  let names := take 4 (drop (4 * c) registered_names) in
  let (v, s1) := extract_double (cin io) indeterminate_double in
  F converter io =
  if fail s1
  then MkConsole (ignore_line (clear s1))
         (written io ++ [cout_text prompt;
                         cerr_text ("Invalid input. Please enter a numeric value." +:+ nl)])
  else
    let (choice, s2) := extract_int s1 indeterminate_int in
    MkConsole s2
      (written io ++ cout_text prompt :: menu_lines names ++
       match (if (1 <=? choice)%Z && (choice <=? 4)%Z
              then names !! Z.to_nat (choice - 1) else None) with
       | None => [cerr_text ("Invalid conversion selection." +:+ nl)]
       | Some name => report (result (convert name v converter))
       end).
Proof.
  intros HF Hp.
  destruct c as [|[|[|[|c]]]]; try discriminate HF;
    injection HF as <-; injection Hp as <-; cbn zeta;
    unfold convertTemperature, convertDistance, convertWeight, convertVolume,
      safeReadDouble, put, with_cin; cbn [cin written];
    destruct (extract_double (cin io) indeterminate_double) as [v s1];
    (destruct (fail s1); cbn [negb cin written];
     [rewrite <- app_assoc; reflexivity|]);
    destruct (extract_int s1 indeterminate_int) as [choice s2];
    cbn [cin written];
    (destruct (Z.eq_dec choice 1%Z) as [->|H1]; [category_case v converter|]);
    (destruct (Z.eq_dec choice 2%Z) as [->|H2]; [category_case v converter|]);
    (destruct (Z.eq_dec choice 3%Z) as [->|H3]; [category_case v converter|]);
    (destruct (Z.eq_dec choice 4%Z) as [->|H4]; [category_case v converter|]);
    rewrite switch_default by assumption;
    (destruct ((1 <=? choice)%Z && (choice <=? 4)%Z) eqn:Hr;
     [apply andb_prop in Hr as [Hlo Hhi];
      apply Z.leb_le in Hlo; apply Z.leb_le in Hhi; lia|]);
    cbn [written cin]; rewrite <- !app_assoc; reflexivity.
Qed.

(** The four category functions have one shape. For the [c]-th of them,
    with the four names [names] of its category: if the value cannot be
    read, it writes its prompt and the invalid-input message and leaves
    the stream cleared with the rest of the line skipped; if the menu
    choice is not 1 to 4 it writes the invalid-selection message; and
    otherwise it writes what [convert] yields for the chosen name. *)
Lemma category_function_unfold
    (c : nat) (F : UnitConverter -> console istream -> console istream)
    (prompt : string) converter io :
  category_functions !! c = Some F ->
  category_prompts !! c = Some prompt ->
  let names := take 4 (drop (4 * c) registered_names) in
  let (v, s1) := extract_double (cin io) indeterminate_double in
  F converter io =
  if fail s1
  then MkConsole (ignore_line (clear s1))
         (written io ++ [cout_text prompt;
                         cerr_text ("Invalid input. Please enter a numeric value." +:+ nl)])
  else
    let (choice, s2) := extract_int s1 indeterminate_int in
    MkConsole s2
      (written io ++ cout_text prompt :: menu_lines names ++
       match (if (1 <=? choice)%Z && (choice <=? 4)%Z
              then names !! Z.to_nat (choice - 1) else None) with
       | None => [cerr_text ("Invalid conversion selection." +:+ nl)]
       | Some name => report (result (convert name v converter))
       end).
Proof.
  exact (category_function_table c F prompt converter io).
Qed.

(** The names of a category's menu are the category's entries of the
    table, in the table's order. *)
Lemma menu_names (c : nat) (k : nat) (name : string) (f : double -> double) :
  (c < 4)%nat -> (k < 4)%nat ->
  spec_table !! (4 * c + k)%nat = Some (name, f) ->
  take 4 (drop (4 * c) registered_names) !! k = Some name.
Proof.
  intros Hc Hk H.
  destruct c as [|[|[|[|c]]]]; try lia;
    destruct k as [|[|[|[|k]]]]; try lia;
    injection H as <- <-; reflexivity.
Qed.

(** The output of a category function after a value and a menu choice
    1 to 4 have been read. *)
Lemma category_function_output
    (c : nat) (F : UnitConverter -> console istream -> console istream)
    (prompt : string) io (v : double) (s1 s2 : istream) (choice : Z)
    (name : string) (f : double -> double) :
  category_functions !! c = Some F ->
  category_prompts !! c = Some prompt ->
  extract_double (cin io) indeterminate_double = (v, s1) ->
  fail s1 = false ->
  extract_int s1 indeterminate_int = (choice, s2) ->
  (1 <= choice <= 4)%Z ->
  spec_table !! (4 * c + Z.to_nat (choice - 1))%nat = Some (name, f) ->
  F UnitConverter_new io
  = MkConsole s2
      (written io ++ cout_text prompt
       :: menu_lines (take 4 (drop (4 * c) registered_names))
       ++ match validation name v with
          | Some e => [cerr_text "Error: "; cerr_text (what e); cerr_text nl]
          | None => [cout_text "Converted value: "; cout_fixed;
                     cout_setprecision 2; cout_double (f (clamp v));
                     cout_text nl]
          end).
Proof.
  intros HF Hp Hv Hok Hchoice Hrange Hentry.
  pose proof (category_function_table c F prompt UnitConverter_new io HF Hp)
    as H.
  cbn zeta in H. rewrite Hv, Hok, Hchoice in H. rewrite H. clear H.
  assert (Hc : (c < 4)%nat).
  { apply lookup_lt_Some in HF. exact HF. }
  replace ((1 <=? choice)%Z && (choice <=? 4)%Z) with true
    by (symmetry; apply andb_true_intro; split; apply Z.leb_le; lia).
  rewrite (menu_names c (Z.to_nat (choice - 1)) name f Hc ltac:(lia) Hentry).
  rewrite convert_result. unfold dispatch.
  rewrite (registry_lookup name f)
    by (apply list_elem_of_lookup; eexists; exact Hentry).
  destruct (validation name v); reflexivity.
Qed.

(** What a category function prints once a value [v] and a menu choice
    1 to 4 have been read, on the converter [main] builds: the choice
    [k] of the [c]-th function selects entry [4c + k] of the table; if
    [v] fails a range check of that name, the message of the first
    failing check goes to [std::cerr] after "Error: "; otherwise the
    table's formula applied to the clamped value goes to [std::cout],
    in fixed notation with precision 2. *)
Theorem category_function_converts
    (c : nat) (F : UnitConverter -> console istream -> console istream)
    (prompt : string) io (v : double) (s1 s2 : istream) (choice : Z)
    (name : string) (f : double -> double) :
  category_functions !! c = Some F ->
  category_prompts !! c = Some prompt ->
  extract_double (cin io) indeterminate_double = (v, s1) ->
  fail s1 = false ->
  extract_int s1 indeterminate_int = (choice, s2) ->
  (1 <= choice <= 4)%Z ->
  spec_table !! (4 * c + Z.to_nat (choice - 1))%nat = Some (name, f) ->
  F UnitConverter_new io
  = MkConsole s2
      (written io ++ cout_text prompt
       :: menu_lines (take 4 (drop (4 * c) registered_names))
       ++ match validation name v with
          | Some e => [cerr_text "Error: "; cerr_text (what e); cerr_text nl]
          | None => [cout_text "Converted value: "; cout_fixed;
                     cout_setprecision 2; cout_double (f (clamp v));
                     cout_text nl]
          end).
Proof.
  exact (category_function_output c F prompt io v s1 s2 choice name f).
Qed.

(** A negative volume entered under menu choice 3 or 4 of
    [convertVolume] is reported as a negative weight. *)
Theorem convertVolume_reports_weight
    io (v : double) (s1 s2 : istream) (choice : Z) :
  extract_double (cin io) indeterminate_double = (v, s1) ->
  fail s1 = false ->
  extract_int s1 indeterminate_int = (choice, s2) ->
  choice = 3%Z \/ choice = 4%Z ->
  (v <? 0)%float = true ->
  exists shown : list output,
    written (convertVolume UnitConverter_new io)
    = written io ++ shown
      ++ [cerr_text "Error: ";
          cerr_text "Negative weight values are not valid."; cerr_text nl] /\
    cerr_texts shown = [] /\ cout_doubles shown = [].
Proof.
  intros Hv Hok Hchoice Hc Hneg.
  exists (cout_text "Enter volume value: "
          :: menu_lines (take 4 (drop (4 * 3) registered_names))).
  split; [|split; reflexivity].
  destruct Hc as [-> | ->].
  - rewrite (category_function_output 3 convertVolume "Enter volume value: "
               io v s1 s2 3 "MillilitersToFluidOunces"
               (fun ml => ml * 0.033814)%float
               eq_refl eq_refl Hv Hok Hchoice ltac:(lia) eq_refl).
    cbn [written]. unfold validation.
    change (is_temperature "MillilitersToFluidOunces") with false.
    change (is_distance "MillilitersToFluidOunces") with false.
    change (is_weight "MillilitersToFluidOunces") with true.
    rewrite Hneg. reflexivity.
  - rewrite (category_function_output 3 convertVolume "Enter volume value: "
               io v s1 s2 4 "FluidOuncesToMilliliters"
               (fun floz => floz / 0.033814)%float
               eq_refl eq_refl Hv Hok Hchoice ltac:(lia) eq_refl).
    cbn [written]. unfold validation.
    change (is_temperature "FluidOuncesToMilliliters") with false.
    change (is_distance "FluidOuncesToMilliliters") with false.
    change (is_weight "FluidOuncesToMilliliters") with true.
    rewrite Hneg. reflexivity.
Qed.

(** What a call of the [c]-th category function, on the converter [main]
    builds, can write to [std::cerr]: nothing; or the invalid-input
    message; or the invalid-selection message; or "Error: " followed by
    the range error of its own category. [convertVolume] can also report
    the weight error. The unknown-conversion error is never seen. *)
Theorem category_function_errors
    (c : nat) (F : UnitConverter -> console istream -> console istream)
    (err : exception) io :
  category_functions !! c = Some F ->
  category_errors !! c = Some err ->
  exists added : list output,
    written (F UnitConverter_new io) = written io ++ added /\
    (cerr_texts added = [] \/
     cerr_texts added
       = ["Invalid input. Please enter a numeric value." +:+ nl] \/
     cerr_texts added = ["Invalid conversion selection." +:+ nl] \/
     cerr_texts added = ["Error: "; what err; nl] \/
     (c = 3%nat /\
      cerr_texts added
        = ["Error: "; "Negative weight values are not valid."; nl])).
Proof.
  intros HF Herr.
  assert (Hc : (c < 4)%nat) by (apply lookup_lt_Some in HF; exact HF).
  destruct c as [|[|[|[|c]]]]; try lia; injection Herr as <-;
    (pose proof (category_function_table _ F _ UnitConverter_new io HF eq_refl)
      as H; cbn zeta in H;
     destruct (extract_double (cin io) indeterminate_double) as [v s1];
     rewrite H; clear H;
     destruct (fail s1);
     [eexists; split; [reflexivity|]; right; left; reflexivity|];
     destruct (extract_int s1 indeterminate_int) as [choice s2];
     eexists; split; [reflexivity|];
     destruct ((1 <=? choice)%Z && (choice <=? 4)%Z) eqn:Hr;
     [|right; right; left; reflexivity];
     apply andb_prop in Hr as [Hlo Hhi];
     apply Z.leb_le in Hlo; apply Z.leb_le in Hhi;
     assert (Hk : (Z.to_nat (choice - 1) < 4)%nat) by lia;
     destruct (Z.to_nat (choice - 1)) as [|[|[|[|k]]]]; try lia;
     match goal with
     | |- context [?l !! ?k] =>
         let r := eval vm_compute in (l !! k) in change (l !! k) with r
     end;
     cbv beta iota;
     match goal with
     | |- context [convert ?name v UnitConverter_new] =>
         destruct (result (convert name v UnitConverter_new)) as [r|e] eqn:E;
         [left; reflexivity|];
         destruct (convert_exceptions name v UnitConverter_new e E)
           as [(-> & Hcat & _)|[(-> & Hcat & _)|[(-> & Hcat & _)
               |[(-> & Hcat & _)|(_ & Hcat & _)]]]];
         try discriminate Hcat;
         first [ right; right; right; left; reflexivity
               | right; right; right; right; split; reflexivity ]
     end).
Qed.

(** ** [main] *)

Lemma switch5_default {A : Type} (a1 a2 a3 a4 a5 d : A) (z : Z) :
  z <> 1%Z -> z <> 2%Z -> z <> 3%Z -> z <> 4%Z -> z <> 5%Z ->
  match z with 1 => a1 | 2 => a2 | 3 => a3 | 4 => a4 | 5 => a5 | _ => d end%Z
  = d.
Proof.
  intros H1 H2 H3 H4 H5.
  destruct z as [|p|p]; try reflexivity.
  destruct p as [[p|p|]|[p|[p|p|]|]|]; try reflexivity; try congruence.
  destruct p; try reflexivity; congruence.
Qed.

(** How one pass of the loop can end. *)
Lemma main_body_cases converter (choice : Z) io :
  (exists io0, main_body converter choice io
               = inl (0%Z, put [cout_text ("Exiting..." +:+ nl)] io0)) \/
  (exists choice' io0,
      main_body converter choice io
      = inr (choice',
             put [cerr_text ("Invalid input. Please enter a number corresponding to the menu option." +:+ nl)] io0)) \/
  (exists choice' io', choice' <> 5%Z /\
      main_body converter choice io = inr (choice', io')).
Proof.
  unfold main_body.
  destruct (extract_int (cin (displayMenu io)) choice) as [ch s].
  destruct (fail s).
  { right. left. eexists _, _. reflexivity. }
  destruct (Z.eq_dec ch 1%Z) as [->|H1];
    [right; right; eexists _, _; split; [|reflexivity]; discriminate|].
  destruct (Z.eq_dec ch 2%Z) as [->|H2];
    [right; right; eexists _, _; split; [|reflexivity]; discriminate|].
  destruct (Z.eq_dec ch 3%Z) as [->|H3];
    [right; right; eexists _, _; split; [|reflexivity]; discriminate|].
  destruct (Z.eq_dec ch 4%Z) as [->|H4];
    [right; right; eexists _, _; split; [|reflexivity]; discriminate|].
  destruct (Z.eq_dec ch 5%Z) as [->|H5];
    [left; eexists; reflexivity|].
  rewrite switch5_default by assumption.
  right. right. eexists _, _. split; [exact H5|reflexivity].
Qed.

Lemma main_loop_returns (fuel : nat) converter (choice : Z) io
    (code : Z) (io' : console istream) :
  main_loop fuel converter choice io = Some (code, io') ->
  code = 0%Z /\
  exists before : list output,
    written io' = before ++ [cout_text ("Exiting..." +:+ nl)] \/
    written io'
    = before ++ [cerr_text ("Invalid input. Please enter a number corresponding to the menu option." +:+ nl)].
Proof.
  revert choice io. induction fuel as [|fuel IH]; intros choice io;
    [discriminate|].
  cbn [main_loop].
  destruct (main_body_cases converter choice io)
    as [(io0 & ->)|[(ch & io0 & ->)|(ch & io1 & Hch & ->)]].
  - intros [= <- <-]. split; [reflexivity|].
    exists (written io0). left. reflexivity.
  - destruct (ch =? 5)%Z; [|apply IH].
    intros [= <- <-]. split; [reflexivity|].
    exists (written io0). right. reflexivity.
  - apply Z.eqb_neq in Hch. rewrite Hch. apply IH.
Qed.

(** [main] returns 0 or does not return; and when it returns, the last
    thing written is "Exiting..." on [std::cout], after a menu choice of
    5, or the invalid-input message on [std::cerr], after a failed read
    that left 5 in [choice]. *)
Theorem main_returns (fuel : nat) io (code : Z) (io' : console istream) :
  main fuel io = Some (code, io') ->
  code = 0%Z /\
  exists before : list output,
    written io' = before ++ [cout_text ("Exiting..." +:+ nl)] \/
    written io'
    = before ++ [cerr_text ("Invalid input. Please enter a number corresponding to the menu option." +:+ nl)].
Proof. apply main_loop_returns. Qed.

End ConsoleProperties.

Lemma category_function_unfold_witness :
  convertWeight UnitConverter_new
    (MkConsole (MkScript [garbage; line_end; number 5 5] false) [])
  = MkConsole (MkScript [number 5 5] false)
      [cout_text "Enter weight value: ";
       cerr_text ("Invalid input. Please enter a numeric value." +:+ nl)].
Proof.
  pose proof (category_function_unfold 2 convertWeight "Enter weight value: "
                UnitConverter_new
                (MkConsole (MkScript [garbage; line_end; number 5 5] false) [])
                eq_refl eq_refl) as H.
  exact H.
Defined.

Lemma category_function_converts_witness :
  convertDistance UnitConverter_new
    (MkConsole (MkScript [number 2e6 2000000; line_end; number 3 3] false) [])
  = MkConsole (MkScript [] false)
      (cout_text "Enter distance value: "
       :: menu_lines ["KilometersToMiles"; "MilesToKilometers";
                      "MetersToFeet"; "FeetToMeters"]
       ++ [cout_text "Converted value: "; cout_fixed; cout_setprecision 2;
           cout_double (1e6 * 3.28084)%float; cout_text nl]).
Proof.
  refine (category_function_converts 1 convertDistance "Enter distance value: "
            (MkConsole (MkScript [number 2e6 2000000; line_end; number 3 3] false) [])
            2e6%float (MkScript [line_end; number 3 3] false) (MkScript [] false)
            3%Z "MetersToFeet" (fun m => m * 3.28084)%float
            eq_refl eq_refl eq_refl eq_refl eq_refl _ eq_refl).
  lia.
Defined.


Lemma convertVolume_reports_weight_witness :
  exists shown : list output,
    written (convertVolume UnitConverter_new
               (MkConsole (MkScript [number (-2) (-2); number 4 4] false) []))
    = [] ++ shown
      ++ [cerr_text "Error: ";
          cerr_text "Negative weight values are not valid."; cerr_text nl] /\
    cerr_texts shown = [] /\ cout_doubles shown = [].
Proof.
  apply (convertVolume_reports_weight
           (MkConsole (MkScript [number (-2) (-2); number 4 4] false) [])
           (-2)%float (MkScript [number 4 4] false) (MkScript [] false) 4%Z);
    try reflexivity.
  right. reflexivity.
Defined.

Lemma category_function_errors_witness :
  exists added : list output,
    written (convertTemperature UnitConverter_new
               (MkConsole (MkScript [number (-500) (-500); number 1 1] false) []))
    = [] ++ added /\
    (cerr_texts added = [] \/
     cerr_texts added
       = ["Invalid input. Please enter a numeric value." +:+ nl] \/
     cerr_texts added = ["Invalid conversion selection." +:+ nl] \/
     cerr_texts added = ["Error: "; what BelowAbsoluteZero; nl] \/
     (0%nat = 3%nat /\
      cerr_texts added
        = ["Error: "; "Negative weight values are not valid."; nl])).
Proof.
  apply (category_function_errors 0 convertTemperature BelowAbsoluteZero
           (MkConsole (MkScript [number (-500) (-500); number 1 1] false) []));
    reflexivity.
Defined.

Lemma main_returns_witness :
  exists io' : console script,
    main 2 (MkConsole (MkScript [garbage; line_end; number 5 5] false) [])
    = Some (0%Z, io') /\
    exists before : list output,
      written io' = before ++ [cout_text ("Exiting..." +:+ nl)] \/
      written io'
      = before ++ [cerr_text ("Invalid input. Please enter a number corresponding to the menu option." +:+ nl)].
Proof.
  destruct (main 2 (MkConsole (MkScript [garbage; line_end; number 5 5] false) []))
    as [[code io']|] eqn:E; [|vm_compute in E; discriminate E].
  destruct (main_returns 2 _ code io' E) as [-> Hlast].
  exists io'. split; [reflexivity|exact Hlast].
Defined.

